(** * controller-util: the reconcile cycle and the condition buffer

    A shallow embedding of package [core] of dominodatalab/controller-util
    (the condition helper and [Reconciler.Reconcile]) together with the few
    functions of Kubernetes libraries that the package calls, followed by the
    properties of the engine stated against that embedding. *)

From stdpp Require Import base strings list gmap fin_maps.
From Stdlib Require Import ZArith.

Local Open Scope string_scope.
Local Open Scope Z_scope.
Local Open Scope list_scope.

(** ** k8s.io/apimachinery/pkg/apis/meta/v1 *)

Module metav1.

(** [metav1.Time]: an instant, counted from Go's zero instant, so that
    [IsZero] is the test against [0]. *)
Definition Time_IsZero (t : Z) : bool := bool_decide (t = 0).

(** [metav1.ConditionStatus] is a string type with three named values. *)
Definition ConditionTrue : string := "True".
Definition ConditionFalse : string := "False".
Definition ConditionUnknown : string := "Unknown".

(** [metav1.Condition]; the field [Type] is spelled [Type_] here. *)
Record Condition := {
  Type_ : string;
  Status : string;
  ObservedGeneration : Z;
  LastTransitionTime : Z;
  Reason : string;
  Message : string
}.

(** Go's zero value [metav1.Condition{}]. *)
Definition zeroCondition : Condition :=
  {| Type_ := ""; Status := ""; ObservedGeneration := 0;
     LastTransitionTime := 0; Reason := ""; Message := "" |}.

(** Field assignments [c.F = v]. *)
Definition set_Status (v : string) (c : Condition) : Condition :=
  {| Type_ := Type_ c; Status := v; ObservedGeneration := ObservedGeneration c;
     LastTransitionTime := LastTransitionTime c; Reason := Reason c;
     Message := Message c |}.
Definition set_ObservedGeneration (v : Z) (c : Condition) : Condition :=
  {| Type_ := Type_ c; Status := Status c; ObservedGeneration := v;
     LastTransitionTime := LastTransitionTime c; Reason := Reason c;
     Message := Message c |}.
Definition set_LastTransitionTime (v : Z) (c : Condition) : Condition :=
  {| Type_ := Type_ c; Status := Status c; ObservedGeneration := ObservedGeneration c;
     LastTransitionTime := v; Reason := Reason c; Message := Message c |}.
Definition set_Reason (v : string) (c : Condition) : Condition :=
  {| Type_ := Type_ c; Status := Status c; ObservedGeneration := ObservedGeneration c;
     LastTransitionTime := LastTransitionTime c; Reason := v; Message := Message c |}.
Definition set_Message (v : string) (c : Condition) : Condition :=
  {| Type_ := Type_ c; Status := Status c; ObservedGeneration := ObservedGeneration c;
     LastTransitionTime := LastTransitionTime c; Reason := Reason c; Message := v |}.

End metav1.
Export metav1.

(** ** sigs.k8s.io/controller-runtime/pkg/client: [client.Object]

    The parts of an API object that the engine reads or writes. A concrete
    resource type either implements [ConditionObject] (part_000, lines 11-13),
    and then [GetConditions] is [Some] of its condition list, or it does not,
    and [GetConditions] is [None]. [GetDeletionTimestamp] is a [*metav1.Time]:
    [None] is the nil pointer. *)

Record Object := {
  GetName : string;
  GetNamespace : string;
  GetGeneration : Z;
  GetLabels : gmap string string;
  GetAnnotations : gmap string string;
  GetFinalizers : list string;
  GetDeletionTimestamp : option Z;
  GetConditions : option (list Condition)
}.

Definition SetName (v : string) (o : Object) : Object :=
  {| GetName := v; GetNamespace := GetNamespace o; GetGeneration := GetGeneration o;
     GetLabels := GetLabels o; GetAnnotations := GetAnnotations o;
     GetFinalizers := GetFinalizers o; GetDeletionTimestamp := GetDeletionTimestamp o;
     GetConditions := GetConditions o |}.
Definition SetNamespace (v : string) (o : Object) : Object :=
  {| GetName := GetName o; GetNamespace := v; GetGeneration := GetGeneration o;
     GetLabels := GetLabels o; GetAnnotations := GetAnnotations o;
     GetFinalizers := GetFinalizers o; GetDeletionTimestamp := GetDeletionTimestamp o;
     GetConditions := GetConditions o |}.
Definition SetLabels (v : gmap string string) (o : Object) : Object :=
  {| GetName := GetName o; GetNamespace := GetNamespace o; GetGeneration := GetGeneration o;
     GetLabels := v; GetAnnotations := GetAnnotations o;
     GetFinalizers := GetFinalizers o; GetDeletionTimestamp := GetDeletionTimestamp o;
     GetConditions := GetConditions o |}.
Definition SetAnnotations (v : gmap string string) (o : Object) : Object :=
  {| GetName := GetName o; GetNamespace := GetNamespace o; GetGeneration := GetGeneration o;
     GetLabels := GetLabels o; GetAnnotations := v;
     GetFinalizers := GetFinalizers o; GetDeletionTimestamp := GetDeletionTimestamp o;
     GetConditions := GetConditions o |}.
Definition SetFinalizers (v : list string) (o : Object) : Object :=
  {| GetName := GetName o; GetNamespace := GetNamespace o; GetGeneration := GetGeneration o;
     GetLabels := GetLabels o; GetAnnotations := GetAnnotations o;
     GetFinalizers := v; GetDeletionTimestamp := GetDeletionTimestamp o;
     GetConditions := GetConditions o |}.
(** Assignment through the pointer returned by [GetConditions()]. *)
Definition SetConditions (v : list Condition) (o : Object) : Object :=
  {| GetName := GetName o; GetNamespace := GetNamespace o; GetGeneration := GetGeneration o;
     GetLabels := GetLabels o; GetAnnotations := GetAnnotations o;
     GetFinalizers := GetFinalizers o; GetDeletionTimestamp := GetDeletionTimestamp o;
     GetConditions := Some v |}.

(** [IsZero] on a [*metav1.Time]: true on the nil pointer and on the zero instant. *)
Definition DeletionTimestamp_IsZero (o : Object) : bool :=
  match GetDeletionTimestamp o with
  | None => true
  | Some t => Time_IsZero t
  end.

(** ** The Go runtime

    [time.Now()] and the iteration order of [range] over a map are not fixed
    by the program. The [n]-th call of [time.Now()] made by the engine returns
    [TimeNow n]; [range m] visits the entries of [m] in the order
    [MapRange m], which Go only promises to be some enumeration of the
    entries ([MapRange_ok]). *)

Record GoRuntime := {
  TimeNow : nat -> Z;
  MapRange : gmap string Condition -> list (string * Condition)
}.

Definition MapRange_ok (rt : GoRuntime) : Prop :=
  forall m, MapRange rt m ≡ₚ map_to_list m.

(** ** part_000: status conditions *)

(** What a [*metav1.Condition] can point at inside [SetStatusCondition]: an
    element of the slice's backing array, or the variable [cond] that the
    [range] loop of [FindStatusCondition] declares and copies each element
    into. *)
Inductive CondPtr :=
| ElemPtr (i : nat)
| VarPtr.

Record CondMem := {
  backing : list Condition;
  rangeVar : Condition
}.

Definition load (p : CondPtr) (m : CondMem) : Condition :=
  match p with
  | ElemPtr i => default zeroCondition (backing m !! i)
  | VarPtr => rangeVar m
  end.

Definition store (p : CondPtr) (f : Condition -> Condition) (m : CondMem) : CondMem :=
  match p with
  | ElemPtr i => {| backing := alter f i (backing m); rangeVar := rangeVar m |}
  | VarPtr => {| backing := backing m; rangeVar := f (rangeVar m) |}
  end.

(** part_000, lines 104-112. [for _, cond := range conditions] copies the
    element into [cond]; [return &cond] is the address of that variable. *)
Fixpoint FindStatusCondition_range (rest : list Condition) (conditionType : string)
    (m : CondMem) : option CondPtr * CondMem :=
  match rest with
  | [] => (None, m)
  | c :: rest' =>
      let m' := {| backing := backing m; rangeVar := c |} in
      if String.eqb (Type_ c) conditionType then (Some VarPtr, m')
      else FindStatusCondition_range rest' conditionType m'
  end.

Definition FindStatusCondition (conditions : list Condition) (conditionType : string)
    : option CondPtr * CondMem :=
  FindStatusCondition_range conditions conditionType
    {| backing := conditions; rangeVar := zeroCondition |}.

(** part_000, lines 90-101: the writes of [SetStatusCondition] through the
    pointer [existing]. *)
Definition mergeThrough (rt : GoRuntime) (existing : CondPtr) (newCondition : Condition)
    (m : CondMem) (tick : nat) : CondMem * nat :=
  let '(m, tick) :=
    if negb (String.eqb (Status (load existing m)) (Status newCondition)) then
      let m := store existing (set_Status (Status newCondition)) m in
      if negb (Time_IsZero (LastTransitionTime newCondition))
      then (store existing (set_LastTransitionTime (LastTransitionTime newCondition)) m, tick)
      else (store existing (set_LastTransitionTime (TimeNow rt tick)) m, S tick)
    else (m, tick) in
  let m := store existing (set_Reason (Reason newCondition)) m in
  let m := store existing (set_Message (Message newCondition)) m in
  (m, tick).

(** part_000, lines 78-102. [tick] counts the calls of [time.Now()] so far;
    the result is the slice [*conditions] afterwards and the new count. *)
Definition SetStatusCondition (rt : GoRuntime) (conditions : list Condition)
    (newCondition : Condition) (tick : nat) : list Condition * nat :=
  let '(existing, m) := FindStatusCondition conditions (Type_ newCondition) in
  match existing with
  | None =>
      if Time_IsZero (LastTransitionTime newCondition)
      then (conditions ++ [set_LastTransitionTime (TimeNow rt tick) newCondition], S tick)
      else (conditions ++ [newCondition], tick)
  | Some existing =>
      let '(m, tick) := mergeThrough rt existing newCondition m tick in
      (backing m, tick)
  end.

(** [Context] (part_001) as far as a cycle mutates it: the object under
    reconciliation and the condition helper. [conditionHelper.obj] and
    [Context.Object] are the same pointer ([NewConditionHelper(obj)],
    reconciler.go line 231), so the helper's methods act on the pair. *)
Record conditionHelper := {
  pending : gmap string Condition
}.

Record Context := {
  Object_ : Object;
  Conditions : conditionHelper
}.

Definition NewConditionHelper : conditionHelper := {| pending := ∅ |}.

(** part_000, lines 34-36: the loop of [Flush] over the entries in the order
    [l], on the slice and the count of [time.Now()] calls. *)
Definition flushEntries (rt : GoRuntime) (l : list (string * Condition))
    (acc : list Condition * nat) : list Condition * nat :=
  fold_left (fun (acc : list Condition * nat) (kv : string * Condition) =>
               SetStatusCondition rt (fst acc) (snd kv) (snd acc)) l acc.

(** part_000, lines 27-40. When the object has no condition list, the early
    return leaves [pending] as it is. *)
Definition Flush (rt : GoRuntime) (ctx : Context) (tick : nat) : Context * nat :=
  match GetConditions (Object_ ctx) with
  | None => (ctx, tick)
  | Some conds =>
      let '(conds', tick') :=
        flushEntries rt (MapRange rt (pending (Conditions ctx))) (conds, tick) in
      ({| Object_ := SetConditions conds' (Object_ ctx);
          Conditions := {| pending := ∅ |} |}, tick')
  end.

(** part_000, lines 42-47. *)
Definition SetCondition (ctx : Context) (cond : Condition) : Context :=
  let cond :=
    if bool_decide (ObservedGeneration cond = 0)
    then set_ObservedGeneration (GetGeneration (Object_ ctx)) cond
    else cond in
  {| Object_ := Object_ ctx;
     Conditions := {| pending := <[Type_ cond := cond]> (pending (Conditions ctx)) |} |}.

(** part_000, lines 49-56. *)
Definition Set_ (ctx : Context) (conditionType : string) (status : string)
    (reason message : string) : Context :=
  SetCondition ctx
    {| Type_ := conditionType; Status := status; ObservedGeneration := 0;
       LastTransitionTime := 0; Reason := reason; Message := message |}.

Definition SetFalse (ctx : Context) (conditionType reason message : string) : Context :=
  Set_ ctx conditionType ConditionFalse reason message.
Definition SetTrue (ctx : Context) (conditionType reason message : string) : Context :=
  Set_ ctx conditionType ConditionTrue reason message.
Definition SetUnknown (ctx : Context) (conditionType reason message : string) : Context :=
  Set_ ctx conditionType ConditionUnknown reason message.

(** ** Errors

    Go's [error] values as far as the engine builds or inspects them. *)

#[local] Set Warnings "-register-all".

Inductive error :=
| StatusError (reason : string) (code : Z) (message : string)
| errorString (message : string)
| wrapError (prefix : string) (err : error)
| Aggregate (errs : list error).

(** [apierrors.reasonAndCodeForError]: the reason and the HTTP code of the
    API status error found along the chain of wrapped errors, and
    [metav1.StatusReasonUnknown] (the empty string) with code 0 when there is
    none. *)
Fixpoint reasonAndCodeForError (err : error) : string * Z :=
  match err with
  | StatusError reason code _ => (reason, code)
  | wrapError _ err' => reasonAndCodeForError err'
  | _ => ("", 0)
  end.

(** [apierrors.knownReasons]: the reasons the library knows;
    [metav1.StatusReasonUnknown] is not among them. *)
Definition knownReasons : list string :=
  ["Unauthorized"; "Forbidden"; "NotFound"; "AlreadyExists"; "Conflict"; "Gone";
   "Invalid"; "ServerTimeout"; "Timeout"; "TooManyRequests"; "BadRequest";
   "MethodNotAllowed"; "NotAcceptable"; "RequestEntityTooLarge";
   "UnsupportedMediaType"; "InternalError"; "Expired"; "ServiceUnavailable"].

(** [apierrors.IsNotFound]: the reason is [metav1.StatusReasonNotFound], or
    the reason is none the library knows and the code is
    [http.StatusNotFound]. *)
Definition IsNotFound (err : error) : bool :=
  let '(reason, code) := reasonAndCodeForError err in
  if String.eqb reason "NotFound" then true
  else if negb (existsb (String.eqb reason) knownReasons) && (code =? 404) then true
  else false.

(** [utilerrors.NewAggregate]: nil for an empty list, else one error holding
    the list. The engine only appends non-nil errors (line 270). *)
Definition NewAggregate (errlist : list error) : option error :=
  match errlist with
  | [] => None
  | _ :: _ => Some (Aggregate errlist)
  end.

(** ** sigs.k8s.io/controller-runtime/pkg/controller/controllerutil *)

Module controllerutil.

Definition ContainsFinalizer (o : Object) (finalizer : string) : bool :=
  existsb (String.eqb finalizer) (GetFinalizers o).

(** Appends [finalizer] unless it is already there. *)
Definition AddFinalizer (o : Object) (finalizer : string) : Object :=
  if ContainsFinalizer o finalizer then o
  else SetFinalizers (GetFinalizers o ++ [finalizer]) o.

(** Drops every occurrence of [finalizer], keeping the order of the rest. *)
Definition RemoveFinalizer (o : Object) (finalizer : string) : Object :=
  SetFinalizers
    (List.filter (fun e => negb (String.eqb e finalizer)) (GetFinalizers o)) o.

End controllerutil.

(** ** sigs.k8s.io/controller-runtime: requests, results and the client *)

(** [ctrl.Request]; [RequeueAfter] of [ctrl.Result] is a [time.Duration], a
    signed count of nanoseconds that the engine only compares. *)
Record Request := {
  Namespace : string;
  Name : string
}.

Record Result := {
  Requeue : bool;
  RequeueAfter : Z
}.

(** [ctrl.Result{}]. *)
Definition zeroResult : Result := {| Requeue := false; RequeueAfter := 0 |}.

(** What [client.Get] does to the object passed in: fills it, or fails and
    leaves it as it was. *)
Inductive GetResult :=
| GetFound (o : Object)
| GetFailed (err : error).

(** The three calls the engine makes on [r.client]. [Patch obj base owner]
    stands for [Patch(ctx, obj, client.MergeFrom(base),
    &client.PatchOptions{FieldManager: owner})], [StatusPatch] for the same
    call on [Status()]. *)
Record Client := {
  Get : Request -> GetResult;
  Patch : Object -> Object -> string -> option error;
  StatusPatch : Object -> Object -> string -> option error
}.

(** ** Components *)

(** Modelled from the spec: the interfaces [Component] and
    [FinalizerComponent], which reconciler.go uses and no file under src/
    declares. Section 4.2: reconcile-step is [reconcile(ctx) ->
    (requeue-signal, error)], finalize-step is [finalize(ctx) ->
    (requeue-signal, done, error)]. A step receives the [*Context] and may
    mutate what it points to, so it is a function from the context before to
    the context after and the returned values. A component that lacks the
    finalizer capability has [comp_Finalize = None]. *)
Record Component := {
  comp_Reconcile : Context -> Context * Result * option error;
  comp_Finalize : option (Context -> Context * Result * bool * option error)
}.

(** reconciler.go, lines 26-32. *)
Record reconcilerComponent := {
  rc_name : string;
  rc_comp : Component;
  rc_finalizer : option (Context -> Context * Result * bool * option error);
  rc_finalizerName : string
}.

(** reconciler.go, lines 34-52: the fields that [Reconcile] reads. *)
Record Reconciler := {
  r_name : string;
  apiType : Object;
  client : Client;
  abortNotFound : bool;
  components : list reconcilerComponent
}.

(** reconciler.go, lines 73-85, [Reconciler.Component]: the type assertion
    [comp.(FinalizerComponent)] fills [finalizer]. The finalizer name is set
    later, by [Build] (line 156). *)
Definition Component_ (r : Reconciler) (name : string) (comp : Component) : Reconciler :=
  let rc := {| rc_name := name; rc_comp := comp;
               rc_finalizer := comp_Finalize comp; rc_finalizerName := "" |} in
  {| r_name := r_name r; apiType := apiType r; client := client r;
     abortNotFound := abortNotFound r; components := components r ++ [rc] |}.

(** reconciler.go, lines 93-96. *)
Definition ReconcileNotFound (r : Reconciler) : Reconciler :=
  {| r_name := r_name r; apiType := apiType r; client := client r;
     abortNotFound := false; components := components r |}.

(** ** The calls a cycle makes

    A cycle is observed through the calls the engine makes on its
    collaborators, in order, with what each call returned. *)
Inductive Event :=
| EvGet (req : Request)
| EvReconcile (component : string) (res : Result) (err : option error)
| EvFinalize (component : string) (res : Result) (done : bool) (err : option error)
| EvAddFinalizer (finalizer : string)
| EvRemoveFinalizer (finalizer : string)
| EvFlush
| EvPatch (obj base : Object) (fieldManager : string) (err : option error)
| EvStatusPatch (obj base : Object) (fieldManager : string) (err : option error).

(** The variables of the component loop (lines 236-274): [ctx], [finalRes],
    [errs], the count of [time.Now()] calls and the calls made so far. *)
Record LoopState := {
  ls_ctx : Context;
  ls_finalRes : Result;
  ls_errs : list error;
  ls_tick : nat;
  ls_trace : list Event
}.

Definition set_Object (o : Object) (ctx : Context) : Context :=
  {| Object_ := o; Conditions := Conditions ctx |}.

(** Lines 244-261: the call of one component, with the engine's own writes
    to the finalizers. *)
Definition invoke (rc : reconcilerComponent) (ctx : Context)
    : Context * Result * option error * list Event :=
  if DeletionTimestamp_IsZero (Object_ ctx) then
    let '(ctx, res, err) := comp_Reconcile (rc_comp rc) ctx in
    if bool_decide (is_Some (rc_finalizer rc))
       && negb (controllerutil.ContainsFinalizer (Object_ ctx) (rc_finalizerName rc))
    then (set_Object (controllerutil.AddFinalizer (Object_ ctx) (rc_finalizerName rc)) ctx,
          res, err,
          [EvReconcile (rc_name rc) res err; EvAddFinalizer (rc_finalizerName rc)])
    else (ctx, res, err, [EvReconcile (rc_name rc) res err])
  else
    match rc_finalizer rc with
    | Some Finalize =>
        if controllerutil.ContainsFinalizer (Object_ ctx) (rc_finalizerName rc) then
          let '(ctx, res, done, err) := Finalize ctx in
          if done
          then (set_Object (controllerutil.RemoveFinalizer (Object_ ctx) (rc_finalizerName rc)) ctx,
                res, err,
                [EvFinalize (rc_name rc) res done err; EvRemoveFinalizer (rc_finalizerName rc)])
          else (ctx, res, err, [EvFinalize (rc_name rc) res done err])
        else (ctx, zeroResult, None, [])
    | None => (ctx, zeroResult, None, [])
    end.

(** Lines 264-269. *)
Definition mergeResult (finalRes res : Result) : Result :=
  let finalRes :=
    if Requeue res
    then {| Requeue := true; RequeueAfter := RequeueAfter finalRes |}
    else finalRes in
  if negb (RequeueAfter res =? 0)
     && ((RequeueAfter finalRes =? 0) || (RequeueAfter finalRes >? RequeueAfter res))
  then {| Requeue := Requeue finalRes; RequeueAfter := RequeueAfter res |}
  else finalRes.

(** Lines 270-273. *)
Definition appendErr (errs : list error) (err : option error) : list error :=
  match err with
  | Some e => errs ++ [e]
  | None => errs
  end.

(** Lines 238-274: one iteration of the loop over [r.components]. *)
Definition loopBody (rt : GoRuntime) (st : LoopState) (rc : reconcilerComponent) : LoopState :=
  let '(ctx, res, err, evs) := invoke rc (ls_ctx st) in
  let '(ctx, tick) := Flush rt ctx (ls_tick st) in
  {| ls_ctx := ctx;
     ls_finalRes := mergeResult (ls_finalRes st) res;
     ls_errs := appendErr (ls_errs st) err;
     ls_tick := tick;
     ls_trace := ls_trace st ++ evs ++ [EvFlush] |}.

(** What [Reconcile] returns, [result] and [err], together with what it
    leaves behind: the working copy [obj], the snapshot [cleanObj] if one was
    taken, and the calls made. *)
Record Outcome := {
  out_result : Result;
  out_err : option error;
  out_obj : Object;
  out_clean : option Object;
  out_trace : list Event
}.

(** Lines 278-283 and 285-290: a copy of the prototype that carries the name,
    namespace, labels, annotations and finalizers of [o]. *)
Definition metaOf (r : Reconciler) (o : Object) : Object :=
  SetFinalizers (GetFinalizers o)
    (SetAnnotations (GetAnnotations o)
      (SetLabels (GetLabels o)
        (SetNamespace (GetNamespace o)
          (SetName (GetName o) (apiType r))))).

Definition SkipReconcileAnnotation : string :=
  "controller-util.dominodatalab.com/skip-reconcile".

(** Lines 276-305: persistence and the final return. *)
Definition persist (r : Reconciler) (cleanObj : Object) (st : LoopState) : Outcome :=
  let obj := Object_ (ls_ctx st) in
  if negb (abortNotFound r) then
    let currentMeta := metaOf r obj in
    let cleanMeta := metaOf r cleanObj in
    let err1 := Patch (client r) currentMeta cleanMeta (r_name r) in
    let tr1 := ls_trace st ++ [EvPatch currentMeta cleanMeta (r_name r) err1] in
    match err1 with
    | Some err =>
        {| out_result := zeroResult;
           out_err := Some (wrapError "error patching metadata" err);
           out_obj := obj; out_clean := Some cleanObj; out_trace := tr1 |}
    | None =>
        let err2 := StatusPatch (client r) obj cleanObj (r_name r) in
        let tr2 := tr1 ++ [EvStatusPatch obj cleanObj (r_name r) err2] in
        match err2 with
        | Some err =>
            {| out_result := zeroResult;
               out_err := Some (wrapError "error patching status" err);
               out_obj := obj; out_clean := Some cleanObj; out_trace := tr2 |}
        | None =>
            {| out_result := ls_finalRes st; out_err := NewAggregate (ls_errs st);
               out_obj := obj; out_clean := Some cleanObj; out_trace := tr2 |}
        end
    end
  else
    {| out_result := ls_finalRes st; out_err := NewAggregate (ls_errs st);
       out_obj := obj; out_clean := Some cleanObj; out_trace := ls_trace st |}.

(** Lines 235-274: the loop over [r.components]. *)
Definition runComponents (rt : GoRuntime) (cs : list reconcilerComponent)
    (st : LoopState) : LoopState :=
  fold_left (loopBody rt) cs st.

(** Go's two-valued map index [v, ok := m[key]]. *)
Definition mapIndex (m : gmap string string) (key : string) : string * bool :=
  match m !! key with
  | Some v => (v, true)
  | None => ("", false)
  end.

(** Lines 215-216: the test that ends the cycle early. *)
Definition skipReconcile (obj : Object) : bool :=
  let '(skip, ok) := mapIndex (GetAnnotations obj) SkipReconcileAnnotation in
  ok && String.eqb skip "true".

(** Lines 221-233: the state in which the loop starts. *)
Definition initialState (req : Request) (obj : Object) : LoopState :=
  {| ls_ctx := {| Object_ := obj; Conditions := NewConditionHelper |};
     ls_finalRes := zeroResult; ls_errs := []; ls_tick := O;
     ls_trace := [EvGet req] |}.

(** Lines 212-305: the cycle from the snapshot on, for the fetched (or
    reconstructed) object [obj]. *)
Definition reconcileObject (rt : GoRuntime) (r : Reconciler) (req : Request)
    (obj : Object) : Outcome :=
  let cleanObj := obj in
  if skipReconcile obj then
    {| out_result := zeroResult; out_err := None; out_obj := obj;
       out_clean := Some cleanObj; out_trace := [EvGet req] |}
  else
    persist r cleanObj (runComponents rt (components r) (initialState req obj)).

(** Lines 192-305, [Reconciler.Reconcile]. *)
Definition Reconcile (rt : GoRuntime) (r : Reconciler) (req : Request) : Outcome :=
  let obj := apiType r in
  match Get (client r) req with
  | GetFailed err =>
      if negb (IsNotFound err) then
        {| out_result := zeroResult; out_err := Some err; out_obj := obj;
           out_clean := None; out_trace := [EvGet req] |}
      else if abortNotFound r then
        {| out_result := zeroResult; out_err := None; out_obj := obj;
           out_clean := None; out_trace := [EvGet req] |}
      else
        reconcileObject rt r req (SetNamespace (Namespace req) (SetName (Name req) obj))
  | GetFound obj => reconcileObject rt r req obj
  end.

(** ** Reading a cycle's calls *)

(** The object a cycle works on once the fetch is over: the fetched one, or
    in tolerant mode the reconstructed one; [None] when the cycle ends at the
    fetch. *)
Definition workingObject (r : Reconciler) (req : Request) : option Object :=
  match Get (client r) req with
  | GetFound obj => Some obj
  | GetFailed err =>
      if IsNotFound err && negb (abortNotFound r)
      then Some (SetNamespace (Namespace req) (SetName (Name req) (apiType r)))
      else None
  end.

(** What the reconcile-steps and finalize-steps of a cycle returned. *)
Definition stepResult (ev : Event) : list Result :=
  match ev with
  | EvReconcile _ res _ => [res]
  | EvFinalize _ res _ _ => [res]
  | _ => []
  end.

Definition stepError (ev : Event) : list error :=
  match ev with
  | EvReconcile _ _ (Some err) => [err]
  | EvFinalize _ _ _ (Some err) => [err]
  | _ => []
  end.

Definition componentResults (tr : list Event) : list Result := flat_map stepResult tr.
Definition componentErrors (tr : list Event) : list error := flat_map stepError tr.

(** The steps called, by kind and component name, without what they returned. *)
Inductive Step :=
| ReconcileStep (component : string)
| FinalizeStep (component : string).

Definition stepCalled (ev : Event) : list Step :=
  match ev with
  | EvReconcile n _ _ => [ReconcileStep n]
  | EvFinalize n _ _ _ => [FinalizeStep n]
  | _ => []
  end.

Definition dispatched (tr : list Event) : list Step := flat_map stepCalled tr.

Definition isPatch (ev : Event) : bool :=
  match ev with
  | EvPatch _ _ _ _ | EvStatusPatch _ _ _ _ => true
  | _ => false
  end.

Definition isFailedPatch (ev : Event) : bool :=
  match ev with
  | EvPatch _ _ _ (Some _) | EvStatusPatch _ _ _ (Some _) => true
  | _ => false
  end.

Definition isFinalizerWrite (ev : Event) : bool :=
  match ev with
  | EvAddFinalizer _ | EvRemoveFinalizer _ => true
  | _ => false
  end.

Definition isFlush (ev : Event) : bool :=
  match ev with
  | EvFlush => true
  | _ => false
  end.

(** The persistence calls of a cycle, in order. *)
Definition patchCalls (tr : list Event) : list Event := List.filter isPatch tr.

(** Whether a persistence call of the cycle failed. *)
Definition persistenceFailed (tr : list Event) : bool := existsb isFailedPatch tr.

(** The aggregate of section 3's Cycle Result, written as the spec words it:
    the OR of the flags, and the least of the delays that are not zero. *)
Definition nonZero (ds : list Z) : list Z := List.filter (fun d => negb (d =? 0)) ds.

Definition nonZeroDelays (rs : list Result) : list Z := nonZero (map RequeueAfter rs).

Definition isLeastNonZero (rs : list Result) (d : Z) : Prop :=
  let ds := nonZeroDelays rs in
  (ds = [] -> d = 0) /\ (ds <> [] -> In d ds /\ Forall (Z.le d) ds).



(** Lines 267-269 on the delays alone. *)
Definition minDelay (a b : Z) : Z :=
  if a =? 0 then b else if b =? 0 then a else Z.min a b.

(** The loop variables against the calls made so far: [errs] holds every
    error a step returned, [finalRes] is the fold of the steps' results, and
    no persistence call has been made. *)
Definition loopInv (st : LoopState) : Prop :=
  ls_errs st = componentErrors (ls_trace st) /\
  ls_finalRes st = fold_left mergeResult (componentResults (ls_trace st)) zeroResult /\
  patchCalls (ls_trace st) = [] /\
  persistenceFailed (ls_trace st) = false.

(** Go's zero value of the resource type: the prototype [&T{}] that is
    usually handed to [For]. *)
Definition zeroObject (conds : option (list Condition)) : Object :=
  {| GetName := ""; GetNamespace := ""; GetGeneration := 0; GetLabels := ∅;
     GetAnnotations := ∅; GetFinalizers := []; GetDeletionTimestamp := None;
     GetConditions := conds |}.

(** The conditions of type [ty] in a list. *)
Definition conditionsOfType (ty : string) (conditions : list Condition) : list Condition :=
  List.filter (fun c => String.eqb (Type_ c) ty) conditions.

(** The buffer is keyed by condition type (line 46). *)
Definition pendingKeyed (h : conditionHelper) : Prop :=
  forall k c, pending h !! k = Some c -> Type_ c = k.

(** Lines 82-84: the transition time of an appended condition. *)
Definition stamped (rt : GoRuntime) (tick : nat) (c : Condition) : Condition :=
  if Time_IsZero (LastTransitionTime c)
  then set_LastTransitionTime (TimeNow rt tick) c
  else c.

(** reconciler.go, lines 54-71: [NewReconciler(mgr).For(apiType)], with the
    manager's client. *)
Definition NewReconcilerFor (mgrClient : Client) (apiType : Object) : Reconciler :=
  {| r_name := ""; apiType := apiType; client := mgrClient;
     abortNotFound := true; components := [] |}.

(** ** Concrete engines

    A resource, clients and components to run the definitions on. *)

Module Examples.

Definition rt : GoRuntime :=
  {| TimeNow := fun n => 1000 + Z.of_nat n; MapRange := map_to_list |}.

Definition req : Request := {| Namespace := "default"; Name := "demo" |}.

Definition waiting : Condition :=
  {| Type_ := "Ready"; Status := ConditionFalse; ObservedGeneration := 3;
     LastTransitionTime := 50; Reason := "Waiting"; Message := "not yet" |}.

(** A live resource whose list already holds a Ready condition. *)
Definition fetched : Object :=
  {| GetName := "demo"; GetNamespace := "default"; GetGeneration := 7;
     GetLabels := ∅; GetAnnotations := ∅; GetFinalizers := [];
     GetDeletionTimestamp := None; GetConditions := Some [waiting] |}.

(** The same resource marked for deletion, holding one finalizer. *)
Definition deleting : Object :=
  {| GetName := "demo"; GetNamespace := "default"; GetGeneration := 7;
     GetLabels := ∅; GetAnnotations := ∅;
     GetFinalizers := ["demo.example.com/storage"];
     GetDeletionTimestamp := Some 900; GetConditions := Some [waiting] |}.

(** The same resource carrying the skip annotation with value [v]. *)
Definition annotated (v : string) : Object :=
  SetAnnotations {[ SkipReconcileAnnotation := v ]} fetched.

Definition conflict : error := StatusError "Conflict" 409 "object was modified".
Definition notFound : error := StatusError "NotFound" 404 "demo not found".
Definition timeout : error := errorString "context deadline exceeded".
Definition boom : error := errorString "boom".

Definition serving (obj : Object) : Client :=
  {| Get := fun _ => GetFound obj;
     Patch := fun _ _ _ => None;
     StatusPatch := fun _ _ _ => None |}.

Definition rejectingPatches (obj : Object) : Client :=
  {| Get := fun _ => GetFound obj;
     Patch := fun _ _ _ => Some conflict;
     StatusPatch := fun _ _ _ => None |}.

Definition failingGet (err : error) : Client :=
  {| Get := fun _ => GetFailed err;
     Patch := fun _ _ _ => None;
     StatusPatch := fun _ _ _ => None |}.

(** A component that asks to come back after [d] and labels the resource. *)
Definition requeueIn (d : Z) : Component :=
  {| comp_Reconcile := fun ctx =>
       (set_Object (SetLabels (<["seen" := "yes"]> (GetLabels (Object_ ctx))) (Object_ ctx)) ctx,
        {| Requeue := false; RequeueAfter := d |}, None);
     comp_Finalize := None |}.

(** A component whose reconcile-step fails. *)
Definition failing : Component :=
  {| comp_Reconcile := fun ctx => (ctx, zeroResult, Some boom);
     comp_Finalize := None |}.

(** A finalizer-capable component: its reconcile-step fails, its
    finalize-step reports [done] and fails when it is not done. *)
Definition storage (done : bool) : Component :=
  {| comp_Reconcile := fun ctx => (ctx, zeroResult, Some boom);
     comp_Finalize := Some (fun ctx =>
       (ctx, {| Requeue := negb done; RequeueAfter := 0 |}, done,
        if done then None else Some boom)) |}.

(** Registration ([Component], line 73) followed by [Build]'s naming
    (line 156). *)
Definition register (name : string) (comp : Component) : reconcilerComponent :=
  {| rc_name := name; rc_comp := comp; rc_finalizer := comp_Finalize comp;
     rc_finalizerName := "demo.example.com/" +:+ name |}.

Definition engine (c : Client) (abort : bool) (cs : list reconcilerComponent) : Reconciler :=
  {| r_name := "demo"; apiType := zeroObject (Some []); client := c;
     abortNotFound := abort; components := cs |}.

Definition loopAt (obj : Object) : LoopState := initialState req obj.

End Examples.

(** ** part_002: package collection *)

Module collection.

(** A Go [map[string]string]: the nil map, which reads as empty and panics
    on assignment, or a map value. *)
Inductive StringMap :=
| nilMap
| mkMap (m : gmap string string).

Definition entries (sm : StringMap) : gmap string string :=
  match sm with
  | nilMap => ∅
  | mkMap m => m
  end.

(** [m[k] = v]; [None] is the panic of an assignment to a nil map. *)
Definition mapAssign (k v : string) (sm : StringMap) : option StringMap :=
  match sm with
  | nilMap => None
  | mkMap m => Some (mkMap (<[k := v]> m))
  end.

(** part_002, lines 4-9. [range] is the order in which Go visits the
    entries of [src]; the result is [dst] after the assignments, [None] when
    one of them panics. *)
Definition MergeStringMaps (range : gmap string string -> list (string * string))
    (src dst : StringMap) : option StringMap :=
  fold_left (fun (acc : option StringMap) (kv : string * string) =>
               acc ≫= mapAssign kv.1 kv.2)
            (range (entries src)) (Some dst).

End collection.

(** Go visits every entry of a map once, in an order it does not fix. *)
Definition RangeOk (range : gmap string string -> list (string * string)) : Prop :=
  forall m, range m ≡ₚ map_to_list m.

(** ** metadata/metadata.go *)

Module metadata.

Import collection.

Definition ApplicationNameLabelKey : string := "app.kubernetes.io/name".
Definition ApplicationInstanceLabelKey : string := "app.kubernetes.io/instance".
Definition ApplicationVersionLabelKey : string := "app.kubernetes.io/version".
Definition ApplicationComponentLabelKey : string := "app.kubernetes.io/component".
Definition ApplicationPartOfLabelKey : string := "app.kubernetes.io/part-of".
Definition ApplicationManagedByLabelKey : string := "app.kubernetes.io/managed-by".
Definition ApplicationCreatedByLabelKey : string := "app.kubernetes.io/created-by".

(** [AppComponent] is a string type. *)
Definition AppComponentNone : string := "none".

(** Lines 32-39. The two function fields are nil ([None]) unless an option
    sets them. *)
Record Provider := {
  application : string;
  creator : string;
  manager : string;
  version : option (Object -> string);
  dynamicLabels : option (Object -> StringMap)
}.

(** Line 41: an option is a function that writes through [*Provider]. *)
Definition ProviderOpt : Type := Provider -> Provider.

(** Lines 43-65. *)
Definition WithCreator (c : string) : ProviderOpt := fun p =>
  {| application := application p; creator := c; manager := manager p;
     version := version p; dynamicLabels := dynamicLabels p |}.
Definition WithManager (m : string) : ProviderOpt := fun p =>
  {| application := application p; creator := creator p; manager := m;
     version := version p; dynamicLabels := dynamicLabels p |}.
Definition WithVersion (fn : Object -> string) : ProviderOpt := fun p =>
  {| application := application p; creator := creator p; manager := manager p;
     version := Some fn; dynamicLabels := dynamicLabels p |}.
Definition WithDynamicLabels (fn : Object -> StringMap) : ProviderOpt := fun p =>
  {| application := application p; creator := creator p; manager := manager p;
     version := version p; dynamicLabels := Some fn |}.

(** Lines 67-74. *)
Definition NewProvider (name : string) (opts : list ProviderOpt) : Provider :=
  fold_left (fun p (opt : ProviderOpt) => opt p) opts
    {| application := name; creator := ""; manager := ""; version := None;
       dynamicLabels := None |}.

(** Lines 76-82; [fmt.Sprintf] with [%s] verbs on strings concatenates. *)
Definition InstanceName (p : Provider) (obj : Object) (ac : string) : string :=
  if String.eqb ac AppComponentNone
  then GetName obj +:+ "-" +:+ application p
  else GetName obj +:+ "-" +:+ application p +:+ "-" +:+ ac.

(** Lines 84-110. *)
Definition StandardLabels (range : gmap string string -> list (string * string))
    (p : Provider) (obj : Object) (ac : string) (extra : StringMap) : option StringMap :=
  let labels :=
    mkMap (<[ApplicationInstanceLabelKey := GetName obj]>
             (<[ApplicationNameLabelKey := application p]> ∅)) in
  labels ← (if negb (String.eqb (creator p) "")
            then mapAssign ApplicationCreatedByLabelKey (creator p) labels
            else Some labels);
  labels ← (if negb (String.eqb (manager p) "")
            then mapAssign ApplicationManagedByLabelKey (manager p) labels
            else Some labels);
  labels ← (match version p with
            | Some fn => mapAssign ApplicationVersionLabelKey (fn obj) labels
            | None => Some labels
            end);
  labels ← (match dynamicLabels p with
            | Some fn => MergeStringMaps range (fn obj) labels
            | None => Some labels
            end);
  labels ← (if negb (String.eqb ac AppComponentNone)
            then mapAssign ApplicationComponentLabelKey ac labels
            else Some labels);
  match extra with
  | mkMap _ => MergeStringMaps range extra labels
  | nilMap => Some labels
  end.

(** Lines 112-123. *)
Definition MatchLabels (p : Provider) (obj : Object) (ac : string) : gmap string string :=
  let labels :=
    <[ApplicationInstanceLabelKey := GetName obj]>
      (<[ApplicationNameLabelKey := application p]> ∅) in
  if negb (String.eqb ac AppComponentNone)
  then <[ApplicationComponentLabelKey := ac]> labels
  else labels.

(** The options the package offers, as data. *)
Inductive Option_ :=
| OptCreator (c : string)
| OptManager (m : string)
| OptVersion (fn : Object -> string)
| OptDynamicLabels (fn : Object -> StringMap).

Definition toOpt (o : Option_) : ProviderOpt :=
  match o with
  | OptCreator c => WithCreator c
  | OptManager m => WithManager m
  | OptVersion fn => WithVersion fn
  | OptDynamicLabels fn => WithDynamicLabels fn
  end.

(** The last creator, and the last manager, that a list of options names. *)
Definition lastCreator (os : list Option_) : string :=
  fold_left (fun acc o => match o with OptCreator c => c | _ => acc end) os "".
Definition lastManager (os : list Option_) : string :=
  fold_left (fun acc o => match o with OptManager m => m | _ => acc end) os "".

(** The dynamic labels of a provider for an object, none when the function
    is nil. *)
Definition dynamicOf (p : Provider) (obj : Object) : gmap string string :=
  match dynamicLabels p with
  | Some fn => entries (fn obj)
  | None => ∅
  end.

(** The labels of [StandardLabels] as one expression over finite maps, with
    the sources layered from the weakest to the strongest. *)
Definition standardLabelsOf (p : Provider) (obj : Object) (ac : string)
    (extra : StringMap) : gmap string string :=
  let l0 := <[ApplicationInstanceLabelKey := GetName obj]>
              (<[ApplicationNameLabelKey := application p]> ∅) in
  let l1 := if negb (String.eqb (creator p) "")
            then <[ApplicationCreatedByLabelKey := creator p]> l0 else l0 in
  let l2 := if negb (String.eqb (manager p) "")
            then <[ApplicationManagedByLabelKey := manager p]> l1 else l1 in
  let l3 := match version p with
            | Some fn => <[ApplicationVersionLabelKey := fn obj]> l2
            | None => l2
            end in
  let l4 := dynamicOf p obj ∪ l3 in
  let l5 := if negb (String.eqb ac AppComponentNone)
            then <[ApplicationComponentLabelKey := ac]> l4 else l4 in
  entries extra ∪ l5.

End metadata.

(** The calls of the live phase: reconcile-steps and finalizer
    registrations. *)
Definition isLiveCall (ev : Event) : bool :=
  match ev with
  | EvReconcile _ _ _ | EvAddFinalizer _ => true
  | _ => false
  end.

(** ** reconciler.go: building the engine *)

(** [schema.GroupVersionKind]. *)
Record GroupVersionKind := {
  Group : string;
  Version : string;
  Kind : string
}.

Inductive GvkResult :=
| GvkOk (gvk : GroupVersionKind)
| GvkErr (err : error).

(** Modelled from the spec: the interface [InitializerComponent], which
    [Build] uses and no file under src/ declares. Section 4.2:
    initialization-step is [initialize(minimal-ctx, registrar) -> error]; the
    registrar is the controller builder, whose state [B] the step may
    change. *)
Definition Initializer (B : Type) : Type := B -> B * option error.

(** What [Build] calls outside the package, over the state [B] of the
    controller builder: the package variable [getGvk] (line 22) applied to
    the manager's scheme, [strings.ToLower], [path.Join], the type
    assertion [rc.comp.(InitializerComponent)] (line 160),
    [controllerBuilder.Build] and the webhook builder's [Complete]. *)
Record BuildEnv (B : Type) := {
  getGvk : Object -> GvkResult;
  ToLower : string -> string;
  pathJoin : string -> string -> string;
  initializerOf : Component -> option (Initializer B);
  controllerBuild : B -> option error;
  webhookComplete : Object -> option error
}.
Arguments getGvk {B}.
Arguments ToLower {B}.
Arguments pathJoin {B}.
Arguments initializerOf {B}.
Arguments controllerBuild {B}.
Arguments webhookComplete {B}.

(** The [Reconciler] as [Build] sees it: the fields of the cycle, and the
    fields that only construction reads or writes (lines 34-52). *)
Record Builder (B : Type) := {
  b_reconciler : Reconciler;
  resourceName : string;
  webhooksEnabled : bool;
  finalizerBaseName : string;
  controllerBuilder : B
}.
Arguments b_reconciler {B}.
Arguments resourceName {B}.
Arguments webhooksEnabled {B}.
Arguments finalizerBaseName {B}.
Arguments controllerBuilder {B}.

Definition set_r_name (v : string) (r : Reconciler) : Reconciler :=
  {| r_name := v; apiType := apiType r; client := client r;
     abortNotFound := abortNotFound r; components := components r |}.

Definition set_finalizerName (v : string) (rc : reconcilerComponent) : reconcilerComponent :=
  {| rc_name := rc_name rc; rc_comp := rc_comp rc; rc_finalizer := rc_finalizer rc;
     rc_finalizerName := v |}.

(** Lines 87-91 and 111-114, on the fields kept here. *)
Definition Named {B} (name : string) (bd : Builder B) : Builder B :=
  {| b_reconciler := set_r_name name (b_reconciler bd);
     resourceName := resourceName bd; webhooksEnabled := webhooksEnabled bd;
     finalizerBaseName := finalizerBaseName bd;
     controllerBuilder := controllerBuilder bd |}.

Definition WithWebhooks {B} (bd : Builder B) : Builder B :=
  {| b_reconciler := b_reconciler bd;
     resourceName := resourceName bd; webhooksEnabled := true;
     finalizerBaseName := finalizerBaseName bd;
     controllerBuilder := controllerBuilder bd |}.

(** Lines 307-318. *)
Definition getControllerName {B} (env : BuildEnv B) (r : Reconciler) : string + error :=
  if negb (String.eqb (r_name r) "") then inl (r_name r)
  else match getGvk env (apiType r) with
       | GvkErr err => inr err
       | GvkOk gvk => inl (ToLower env (Kind gvk))
       end.

(** Lines 150-169: the loop of [Build] over the components still to visit,
    with the map [components] of the names seen so far. It gives the
    components as the loop leaves them (they are pointers, written in
    place), the builder state, the names of the components whose
    [Initialize] was called, in order, and the error the loop returned
    with. *)
Fixpoint buildComponents {B} (env : BuildEnv B) (base : string)
    (seen : gmap string Component) (cs : list reconcilerComponent) (b : B)
    : list reconcilerComponent * B * list string * option error :=
  match cs with
  | [] => ([], b, [], None)
  | rc :: rest =>
      match seen !! rc_name rc with
      | Some _ =>
          (rc :: rest, b, [], Some (errorString "duplicate component found using name"))
      | None =>
          let rc := set_finalizerName (pathJoin env base (rc_name rc)) rc in
          let seen := <[rc_name rc := rc_comp rc]> seen in
          match initializerOf env (rc_comp rc) with
          | None =>
              let '(rest', b', called, err) := buildComponents env base seen rest b in
              (rc :: rest', b', called, err)
          | Some Initialize =>
              let '(b, err) := Initialize b in
              match err with
              | Some e =>
                  (rc :: rest, b, [rc_name rc],
                   Some (wrapError "cannot initialize component" e))
              | None =>
                  let '(rest', b', called, err) := buildComponents env base seen rest b in
                  (rc :: rest', b', rc_name rc :: called, err)
              end
          end
      end
  end.

Definition set_components (cs : list reconcilerComponent) (r : Reconciler) : Reconciler :=
  {| r_name := r_name r; apiType := apiType r; client := client r;
     abortNotFound := abortNotFound r; components := cs |}.

(** Lines 116-185, [Reconciler.Build]: the engine as [Build] leaves it, the
    names of the components whose [Initialize] was called, and the error
    returned. *)
Definition Build {B} (env : BuildEnv B) (bd : Builder B)
    : Builder B * list string * option error :=
  match getControllerName env (b_reconciler bd) with
  | inr err => (bd, [], Some (wrapError "cannot compute controller name" err))
  | inl name =>
      let r := set_r_name name (b_reconciler bd) in
      match getGvk env (apiType r) with
      | GvkErr err =>
          ({| b_reconciler := r; resourceName := resourceName bd;
              webhooksEnabled := webhooksEnabled bd;
              finalizerBaseName := finalizerBaseName bd;
              controllerBuilder := controllerBuilder bd |},
           [], Some (wrapError "cannot get GVK for object" err))
      | GvkOk gvk =>
          let resource := ToLower env (Kind gvk) in
          let base :=
            if String.eqb (finalizerBaseName bd) ""
            then name +:+ "." +:+ Group gvk +:+ "/"
            else finalizerBaseName bd in
          let '(cs, b, called, err) :=
            buildComponents env base ∅ (components r) (controllerBuilder bd) in
          let bd' := {| b_reconciler := set_components cs r; resourceName := resource;
                        webhooksEnabled := webhooksEnabled bd;
                        finalizerBaseName := base; controllerBuilder := b |} in
          match err with
          | Some e => (bd', called, Some e)
          | None =>
              match controllerBuild env b with
              | Some e => (bd', called, Some (wrapError "unable to build controller" e))
              | None =>
                  if webhooksEnabled bd then
                    match webhookComplete env (apiType r) with
                    | Some e => (bd', called, Some (wrapError "unable to build webhook" e))
                    | None => (bd', called, None)
                    end
                  else (bd', called, None)
              end
          end
      end
  end.

(** Lines 187-190. *)
Definition Complete {B} (env : BuildEnv B) (bd : Builder B) : option error :=
  (Build env bd).2.

(** The names of the components that have an initializer, in registration
    order. *)
Definition initializerNames {B} (env : BuildEnv B) (cs : list reconcilerComponent)
    : list string :=
  map rc_name (List.filter (fun rc => bool_decide (is_Some (initializerOf env (rc_comp rc)))) cs).

(** ** Sequences of set calls *)

(** Lines 43-45: the condition as it is staged for a resource of generation
    [g]. *)
Definition observed (g : Z) (c : Condition) : Condition :=
  if bool_decide (ObservedGeneration c = 0) then set_ObservedGeneration g c else c.

(** The calls [SetCondition(c)] made one after the other, first to last. *)
Definition setAll (ctx : Context) (calls : list Condition) : Context :=
  fold_left SetCondition calls ctx.

(** ** A concrete construction *)

Module Samples.

Definition gvk : GroupVersionKind :=
  {| Group := "example.com"; Version := "v1"; Kind := "Demo" |}.

(** Builder state: the registrations made by initializers. In this
    environment the components with a finalize-step are the ones that have
    an initializer. *)
Definition watching (what : string) : Initializer (list string) :=
  fun b => (b ++ [what], None).

Definition env : BuildEnv (list string) :=
  {| getGvk := fun _ => GvkOk gvk;
     ToLower := fun s => if String.eqb s "Demo" then "demo" else s;
     pathJoin := fun a b => a +:+ b;
     initializerOf := fun c =>
       match comp_Finalize c with
       | Some _ => Some (watching "volumes")
       | None => None
       end;
     controllerBuild := fun _ => None;
     webhookComplete := fun _ => None |}.

(** The same environment with a scheme that does not know the type. *)
Definition lost : BuildEnv (list string) :=
  {| getGvk := fun _ => GvkErr (errorString "no kind is registered");
     ToLower := ToLower env; pathJoin := pathJoin env;
     initializerOf := initializerOf env; controllerBuild := controllerBuild env;
     webhookComplete := webhookComplete env |}.

(** The same environment with initializers that fail. *)
Definition strict : BuildEnv (list string) :=
  {| getGvk := getGvk env; ToLower := ToLower env; pathJoin := pathJoin env;
     initializerOf := fun c =>
       match comp_Finalize c with
       | Some _ => Some (fun b => (b ++ ["tried"], Some Examples.boom))
       | None => None
       end;
     controllerBuild := controllerBuild env;
     webhookComplete := webhookComplete env |}.

Definition builder (name : string) (cs : list reconcilerComponent) : Builder (list string) :=
  {| b_reconciler := {| r_name := name; apiType := zeroObject (Some []);
                        client := Examples.serving Examples.fetched;
                        abortNotFound := true; components := cs |};
     resourceName := ""; webhooksEnabled := false; finalizerBaseName := "";
     controllerBuilder := [] |}.

Definition unnamed (name : string) (comp : Component) : reconcilerComponent :=
  {| rc_name := name; rc_comp := comp; rc_finalizer := comp_Finalize comp;
     rc_finalizerName := "" |}.

Definition two : list reconcilerComponent :=
  [unnamed "labels" (Examples.requeueIn 5); unnamed "storage" (Examples.storage true)].

Definition three : list reconcilerComponent :=
  two ++ [unnamed "volumes" (Examples.storage false)].

Definition range : gmap string string -> list (string * string) := map_to_list.

Definition rejectingStatus (obj : Object) : Client :=
  {| Get := fun _ => GetFound obj;
     Patch := fun _ _ _ => None;
     StatusPatch := fun _ _ _ => Some Examples.conflict |}.

Definition available : Condition :=
  {| Type_ := "Available"; Status := ConditionTrue; ObservedGeneration := 0;
     LastTransitionTime := 0; Reason := "Up"; Message := "serving" |}.

Definition staged : Context :=
  SetCondition {| Object_ := Examples.fetched; Conditions := NewConditionHelper |} available.

Definition extras : collection.StringMap :=
  collection.mkMap {[ "team" := "core" ]}.


(** A component that only stages a condition, in a tolerant engine. *)
Definition marking : Component :=
  {| comp_Reconcile := fun ctx => (SetTrue ctx "Available" "Up" "serving", zeroResult, None);
     comp_Finalize := None |}.

Definition statusOnly : Reconciler :=
  Examples.engine (Examples.serving Examples.fetched) false
    [Examples.register "marking" marking].

Definition dying : Reconciler :=
  Examples.engine (Examples.serving Examples.deleting) true
    [Examples.register "storage" (Examples.storage true)].

Definition provider : metadata.Provider :=
  metadata.NewProvider "web"
    [metadata.WithCreator "ops"; metadata.WithVersion (fun _ => "1.2")].

End Samples.

(** * Properties *)

(** ** The condition list under [SetStatusCondition] and [Flush] *)

Section ConditionList.

Variable rt : GoRuntime.

Lemma FindStatusCondition_range_backing rest ty m :
  backing (snd (FindStatusCondition_range rest ty m)) = backing m.
Proof.
  revert m. induction rest as [|c rest IH]; intros m; simpl; [done|].
  destruct (String.eqb (Type_ c) ty); simpl; [done|]. by rewrite IH.
Qed.

(** The pointer that [FindStatusCondition] returns is never into the slice. *)
Lemma FindStatusCondition_range_ptr rest ty m p :
  fst (FindStatusCondition_range rest ty m) = Some p -> p = VarPtr.
Proof.
  revert m. induction rest as [|c rest IH]; intros m; simpl; [done|].
  destruct (String.eqb (Type_ c) ty); simpl; [congruence|]. apply IH.
Qed.

(** Writes through the address of the loop variable never reach the
    slice. *)
Lemma mergeThrough_VarPtr newCondition m tick :
  backing (mergeThrough rt VarPtr newCondition m tick).1 = backing m.
Proof. unfold mergeThrough. repeat case_match; simplify_eq; done. Qed.

(** Through the address of the element itself, lines 90-101 do merge: the
    status, reason and message of the element become the new condition's,
    and its transition time changes exactly when the status does, to the new
    condition's when that is set and to the clock's otherwise. *)
Lemma mergeThrough_ElemPtr i old newCondition m tick :
  backing m !! i = Some old ->
  exists merged,
    backing (mergeThrough rt (ElemPtr i) newCondition m tick).1 !! i = Some merged /\
    Type_ merged = Type_ old /\
    ObservedGeneration merged = ObservedGeneration old /\
    Status merged = Status newCondition /\
    Reason merged = Reason newCondition /\
    Message merged = Message newCondition /\
    LastTransitionTime merged =
      (if String.eqb (Status old) (Status newCondition) then LastTransitionTime old
       else if Time_IsZero (LastTransitionTime newCondition) then TimeNow rt tick
       else LastTransitionTime newCondition).
Proof.
  intros Hold.
  assert (load (ElemPtr i) m = old) as Hl by (simpl; by rewrite Hold).
  unfold mergeThrough. rewrite Hl.
  destruct (String.eqb_spec (Status old) (Status newCondition)) as [Heq|Hne]; cbn [negb].
  - eexists. cbn [store backing fst]. rewrite !list_lookup_alter_eq, Hold. simpl.
    split; [done|]. by repeat split.
  - destruct (Time_IsZero (LastTransitionTime newCondition)); cbn [negb];
      eexists; cbn [store backing fst]; rewrite !list_lookup_alter_eq, Hold; simpl;
      (split; [done|]); by repeat split.
Qed.

(** When a condition of the type is in the list, the list is returned as
    it was: every write goes to the loop variable. *)
Lemma SetStatusCondition_existing conditions newCondition tick :
  fst (FindStatusCondition conditions (Type_ newCondition)) <> None ->
  fst (SetStatusCondition rt conditions newCondition tick) = conditions.
Proof.
  intros Hfound. unfold SetStatusCondition.
  destruct (FindStatusCondition conditions (Type_ newCondition)) as [existing m] eqn:E.
  simpl in Hfound. destruct existing as [p|]; [|done].
  assert (p = VarPtr) as ->.
  { apply (FindStatusCondition_range_ptr conditions (Type_ newCondition)
             {| backing := conditions; rangeVar := zeroCondition |}).
    unfold FindStatusCondition in E. by rewrite E. }
  assert (backing m = conditions) as Hb.
  { unfold FindStatusCondition in E.
    pose proof (FindStatusCondition_range_backing conditions (Type_ newCondition)
                  {| backing := conditions; rangeVar := zeroCondition |}) as H.
    by rewrite E in H. }
  pose proof (mergeThrough_VarPtr newCondition m tick) as Hm.
  destruct (mergeThrough rt VarPtr newCondition m tick) as [m' tick'].
  simpl in *. congruence.
Qed.

(** [Flush] writes the condition list and the buffer, nothing else. *)
Lemma Flush_frame ctx tick :
  let o' := Object_ (fst (Flush rt ctx tick)) in
  GetName o' = GetName (Object_ ctx) /\
  GetNamespace o' = GetNamespace (Object_ ctx) /\
  GetGeneration o' = GetGeneration (Object_ ctx) /\
  GetLabels o' = GetLabels (Object_ ctx) /\
  GetAnnotations o' = GetAnnotations (Object_ ctx) /\
  GetFinalizers o' = GetFinalizers (Object_ ctx) /\
  GetDeletionTimestamp o' = GetDeletionTimestamp (Object_ ctx).
Proof.
  unfold Flush. destruct (GetConditions (Object_ ctx)); [|done].
  destruct (flushEntries _ _ _); simpl. done.
Qed.

(** On a resource type without a condition list, [Flush] does nothing, the
    buffer included. *)
Lemma Flush_no_conditions ctx tick :
  GetConditions (Object_ ctx) = None -> Flush rt ctx tick = (ctx, tick).
Proof. intros H. unfold Flush. by rewrite H. Qed.

Lemma Flush_finalizers ctx tick :
  GetFinalizers (Object_ (fst (Flush rt ctx tick))) = GetFinalizers (Object_ ctx).
Proof. apply (Flush_frame ctx tick). Qed.

End ConditionList.

(** ** The component loop *)

Section Loop.

Variable rt : GoRuntime.

Lemma componentErrors_app tr1 tr2 :
  componentErrors (tr1 ++ tr2) = componentErrors tr1 ++ componentErrors tr2.
Proof. apply flat_map_app. Qed.

Lemma componentResults_app tr1 tr2 :
  componentResults (tr1 ++ tr2) = componentResults tr1 ++ componentResults tr2.
Proof. apply flat_map_app. Qed.

Lemma dispatched_app tr1 tr2 : dispatched (tr1 ++ tr2) = dispatched tr1 ++ dispatched tr2.
Proof. apply flat_map_app. Qed.

Lemma patchCalls_app tr1 tr2 : patchCalls (tr1 ++ tr2) = patchCalls tr1 ++ patchCalls tr2.
Proof. apply List.filter_app. Qed.

Lemma persistenceFailed_app tr1 tr2 :
  persistenceFailed (tr1 ++ tr2) = persistenceFailed tr1 || persistenceFailed tr2.
Proof. apply existsb_app. Qed.

Lemma mergeResult_zero fr : mergeResult fr zeroResult = fr.
Proof. by destruct fr. Qed.

(** What one call contributes to the calls of the cycle. *)
Lemma invoke_events rc ctx :
  let '(_, res, err, evs) := invoke rc ctx in
  List.filter isFlush evs = [] /\
  patchCalls evs = [] /\
  persistenceFailed evs = false /\
  componentErrors evs = match err with Some e => [e] | None => [] end /\
  (forall fr, fold_left mergeResult (componentResults evs) fr = mergeResult fr res).
Proof.
  unfold invoke. repeat case_match; simplify_eq; simpl;
    repeat split; try done; intros; by rewrite ?mergeResult_zero.
Qed.

Lemma loopBody_trace st rc :
  exists evs,
    ls_trace (loopBody rt st rc) = ls_trace st ++ evs ++ [EvFlush] /\
    evs = snd (invoke rc (ls_ctx st)).
Proof.
  unfold loopBody. destruct (invoke rc (ls_ctx st)) as [[[ctx res] err] evs].
  destruct (Flush rt ctx (ls_tick st)). simpl. eauto.
Qed.

(** Every component of the list gets its iteration, which ends in the
    flush of line 263. *)
Lemma runComponents_flushes cs st :
  length (List.filter isFlush (ls_trace (runComponents rt cs st))) =
  (length (List.filter isFlush (ls_trace st)) + length cs)%nat.
Proof.
  revert st. induction cs as [|rc cs IH]; intros st; simpl; [lia|].
  unfold runComponents in *. simpl. rewrite IH.
  destruct (loopBody_trace st rc) as (evs & -> & Hevs).
  pose proof (invoke_events rc (ls_ctx st)) as H.
  destruct (invoke rc (ls_ctx st)) as [[[ctx res] err] evs']. simpl in Hevs. subst evs'.
  destruct H as (Hf & _).
  rewrite !List.filter_app, Hf. simpl. rewrite length_app. simpl. lia.
Qed.

Lemma initialState_inv req obj : loopInv (initialState req obj).
Proof. by repeat split. Qed.

Lemma loopBody_inv st rc : loopInv st -> loopInv (loopBody rt st rc).
Proof.
  intros (He & Hr & Hp & Hf). unfold loopInv, loopBody.
  pose proof (invoke_events rc (ls_ctx st)) as H.
  destruct (invoke rc (ls_ctx st)) as [[[ctx res] err] evs].
  destruct H as (_ & Hp' & Hf' & He' & Hr').
  destruct (Flush rt ctx (ls_tick st)) as [ctx' tick']. simpl.
  rewrite !componentErrors_app, !componentResults_app, !patchCalls_app,
    !persistenceFailed_app, !fold_left_app.
  rewrite <- Hr, <- He, Hp, Hf, Hf', He', Hr', Hp'. simpl.
  repeat split; try done.
  destruct err; simpl; by rewrite ?app_nil_r.
Qed.

Lemma runComponents_inv cs st : loopInv st -> loopInv (runComponents rt cs st).
Proof.
  revert st. induction cs as [|rc cs IH]; intros st Hst; [done|].
  apply IH. by apply loopBody_inv.
Qed.

End Loop.

(** ** Merging requeue signals *)

Section Merge.

Lemma mergeResult_RequeueAfter fr res :
  RequeueAfter (mergeResult fr res) = minDelay (RequeueAfter fr) (RequeueAfter res).
Proof.
  unfold mergeResult, minDelay.
  destruct (Requeue res); simpl;
    destruct (Z.eqb_spec (RequeueAfter res) 0), (Z.eqb_spec (RequeueAfter fr) 0);
    simpl; try lia;
    destruct (Z.gtb_spec (RequeueAfter fr) (RequeueAfter res)); simpl; lia.
Qed.

Lemma mergeResult_Requeue fr res :
  Requeue (mergeResult fr res) = Requeue fr || Requeue res.
Proof.
  unfold mergeResult.
  destruct (Requeue res) eqn:E; simpl; case_match; simpl;
    rewrite ?orb_true_r, ?orb_false_r; done.
Qed.

Lemma fold_mergeResult_Requeue rs fr :
  Requeue (fold_left mergeResult rs fr) = Requeue fr || existsb Requeue rs.
Proof.
  revert fr. induction rs as [|res rs IH]; intros fr; simpl.
  - by rewrite orb_false_r.
  - by rewrite IH, mergeResult_Requeue, orb_assoc.
Qed.

Lemma fold_minDelay_least ds a :
  let d := fold_left minDelay ds a in
  (nonZero (a :: ds) = [] -> d = 0) /\
  (nonZero (a :: ds) <> [] -> In d (nonZero (a :: ds)) /\ Forall (Z.le d) (nonZero (a :: ds))).
Proof.
  revert a. induction ds as [|x ds IH]; intros a; simpl.
  - destruct (Z.eqb_spec a 0); simpl; split; try done.
    + intros _. split; [by left|]. repeat constructor. lia.
  - specialize (IH (minDelay a x)). simpl in IH. unfold minDelay in *.
    destruct (Z.eqb_spec a 0) as [Ha|Ha]; simpl in *; [exact IH|].
    destruct (Z.eqb_spec x 0) as [Hx|Hx]; simpl in *.
    + destruct (Z.eqb_spec a 0); [done|]. exact IH.
    + destruct (Z.eqb_spec (Z.min a x) 0) as [Hm|Hm]; [lia|]. simpl in IH.
      destruct IH as [_ IH]. split; [done|]. intros _.
      destruct IH as [Hin Hall]; [done|].
      apply Forall_cons in Hall as [Hle Hall]. split.
      * destruct Hin as [Hin|Hin]; [|by do 2 right].
        destruct (Z.min_spec a x) as [[_ E]|[_ E]]; [left|right; left]; lia.
      * repeat constructor; try lia. done.
Qed.

Lemma fold_mergeResult_RequeueAfter rs fr :
  RequeueAfter (fold_left mergeResult rs fr) =
  fold_left minDelay (map RequeueAfter rs) (RequeueAfter fr).
Proof.
  revert fr. induction rs as [|res rs IH]; intros fr; simpl; [done|].
  by rewrite IH, mergeResult_RequeueAfter.
Qed.

(** The loop's fold of [mergeResult] is the aggregate of the data model. *)
Lemma fold_mergeResult_aggregate rs :
  let fr := fold_left mergeResult rs zeroResult in
  Requeue fr = existsb Requeue rs /\ isLeastNonZero rs (RequeueAfter fr).
Proof.
  simpl. split; [by rewrite fold_mergeResult_Requeue|].
  rewrite fold_mergeResult_RequeueAfter. simpl.
  apply (fold_minDelay_least (map RequeueAfter rs) 0).
Qed.

End Merge.

(** ** The cycle as a whole *)

Section Cycle.

Variable rt : GoRuntime.

Lemma Reconcile_workingObject r req obj :
  workingObject r req = Some obj -> Reconcile rt r req = reconcileObject rt r req obj.
Proof.
  unfold workingObject, Reconcile. destruct (Get (client r) req) as [o|err].
  - by intros [= ->].
  - destruct (IsNotFound err), (abortNotFound r); simpl; by intros [= <-].
Qed.

Lemma Reconcile_no_object r req :
  workingObject r req = None -> out_trace (Reconcile rt r req) = [EvGet req].
Proof.
  unfold workingObject, Reconcile. destruct (Get (client r) req) as [o|err]; [done|].
  destruct (IsNotFound err), (abortNotFound r); simpl; done.
Qed.

Lemma skipReconcile_true obj :
  skipReconcile obj = true <-> GetAnnotations obj !! SkipReconcileAnnotation = Some "true".
Proof.
  unfold skipReconcile, mapIndex.
  destruct (GetAnnotations obj !! SkipReconcileAnnotation) as [v|]; simpl.
  - rewrite String.eqb_eq. split; congruence.
  - split; congruence.
Qed.

Lemma persist_obj r cleanObj st :
  out_obj (persist r cleanObj st) = Object_ (ls_ctx st) /\
  out_clean (persist r cleanObj st) = Some cleanObj.
Proof. unfold persist. repeat case_match; done. Qed.

(** The persistence calls come after every other call of the cycle. *)
Lemma persist_trace r cleanObj st :
  patchCalls (ls_trace st) = [] ->
  out_trace (persist r cleanObj st) =
  ls_trace st ++ patchCalls (out_trace (persist r cleanObj st)).
Proof.
  intros Hp. unfold persist.
  repeat case_match; simpl; rewrite ?patchCalls_app, ?Hp; simpl;
    by rewrite <- ?app_assoc, ?app_nil_r.
Qed.

Lemma persist_steps r cleanObj st :
  let tr := out_trace (persist r cleanObj st) in
  componentErrors tr = componentErrors (ls_trace st) /\
  componentResults tr = componentResults (ls_trace st) /\
  dispatched tr = dispatched (ls_trace st) /\
  List.filter isFlush tr = List.filter isFlush (ls_trace st) /\
  List.filter isFinalizerWrite tr = List.filter isFinalizerWrite (ls_trace st).
Proof.
  unfold persist.
  repeat case_match; simpl;
    rewrite ?componentErrors_app, ?componentResults_app, ?dispatched_app,
      ?List.filter_app; simpl; by rewrite ?app_nil_r.
Qed.

(** A cycle whose persistence calls, if any, succeed returns the loop's
    result and the aggregate of the loop's errors (line 304). *)
Lemma persist_completed r cleanObj st :
  persistenceFailed (ls_trace st) = false ->
  persistenceFailed (out_trace (persist r cleanObj st)) = false ->
  out_result (persist r cleanObj st) = ls_finalRes st /\
  out_err (persist r cleanObj st) = NewAggregate (ls_errs st).
Proof.
  intros Hf. unfold persist.
  repeat case_match; simpl; rewrite ?persistenceFailed_app, ?Hf; simpl; done.
Qed.

End Cycle.

(** ** Fetch, skip marker and persistence *)

Section FetchSkipPersist.

Variable rt : GoRuntime.

(** Abort-on-not-found is the mode of a new engine; [ReconcileNotFound]
    switches to the tolerant one. *)
Lemma abortNotFound_default mgrClient proto :
  abortNotFound (NewReconcilerFor mgrClient proto) = true /\
  abortNotFound (ReconcileNotFound (NewReconcilerFor mgrClient proto)) = false.
Proof. done. Qed.

(** The skip marker is compared as a whole string, case included. *)
Example skipReconcile_values :
  skipReconcile (Examples.annotated "true") = true /\
  skipReconcile (Examples.annotated "True") = false /\
  skipReconcile (Examples.annotated "TRUE") = false /\
  skipReconcile (Examples.annotated "yes") = false /\
  skipReconcile (Examples.annotated "") = false /\
  skipReconcile Examples.fetched = false.
Proof. vm_compute. done. Qed.

(** What counts as not-found: the reason NotFound whatever the code, a
    reason the library does not know (the empty one included) together with
    code 404, and the same behind wrapping; a known other reason with code
    404, or an error that is no API status, does not. *)
Example IsNotFound_cases :
  IsNotFound (StatusError "NotFound" 404 "gone") = true /\
  IsNotFound (StatusError "NotFound" 0 "gone") = true /\
  IsNotFound (StatusError "" 404 "gone") = true /\
  IsNotFound (StatusError "Vanished" 404 "gone") = true /\
  IsNotFound (wrapError "get" (StatusError "" 404 "gone")) = true /\
  IsNotFound (StatusError "Conflict" 404 "odd") = false /\
  IsNotFound (StatusError "" 500 "down") = false /\
  IsNotFound (errorString "timeout") = false.
Proof. vm_compute. done. Qed.

Lemma runComponents_trace cs st :
  exists evs, ls_trace (runComponents rt cs st) = ls_trace st ++ evs.
Proof.
  revert st. induction cs as [|rc cs IH]; intros st.
  - exists []. simpl. by rewrite app_nil_r.
  - unfold runComponents in *. cbn [fold_left].
    destruct (IH (loopBody rt st rc)) as [evs ->].
    destruct (loopBody_trace rt st rc) as (evs' & -> & _).
    eexists. by rewrite <- !app_assoc.
Qed.

(** The loop on a live resource starts with the reconcile-step of the
    first component, called on the loop's initial context. *)
Lemma runComponents_first rc cs st :
  DeletionTimestamp_IsZero (Object_ (ls_ctx st)) = true ->
  exists rest,
    ls_trace (runComponents rt (rc :: cs) st) =
    ls_trace st ++
    EvReconcile (rc_name rc) (comp_Reconcile (rc_comp rc) (ls_ctx st)).1.2
                (comp_Reconcile (rc_comp rc) (ls_ctx st)).2 :: rest.
Proof.
  intros Hlive. unfold runComponents. cbn [fold_left].
  destruct (runComponents_trace cs (loopBody rt st rc)) as [evs Hevs].
  unfold runComponents in Hevs. rewrite Hevs.
  destruct (loopBody_trace rt st rc) as (evs' & -> & ->).
  unfold invoke. rewrite Hlive.
  destruct (comp_Reconcile (rc_comp rc) (ls_ctx st)) as [[ctx1 res] err].
  cbn [fst snd]. case_match; cbn [snd]; rewrite <- !app_assoc; simpl; by eexists.
Qed.

(** C5. When the fetch fails with not-found, a cycle in abort-on-not-found
    mode returns a nil error and the empty result, having called no step and
    no patch; a cycle in tolerant mode goes on with the prototype carrying
    the requested name and namespace, which for a zero-valued prototype is a
    resource with only name and namespace populated: that object is the
    snapshot, and unless it carries the skip marker every component gets its
    iteration, the first reconcile-step is called on it, and persistence
    starts with the metadata patch against it. A fetch error that is not
    not-found is returned as the cycle's error, with the empty result and
    nothing else called. *)
Theorem fetch_failure_modes r req err :
  Get (client r) req = GetFailed err ->
  let out := Reconcile rt r req in
  let bare := SetNamespace (Namespace req) (SetName (Name req) (apiType r)) in
  (IsNotFound err = true -> abortNotFound r = true ->
     out_err out = None /\ out_result out = zeroResult /\
     out_trace out = [EvGet req] /\ dispatched (out_trace out) = [] /\
     patchCalls (out_trace out) = []) /\
  (IsNotFound err = true -> abortNotFound r = false ->
     out = reconcileObject rt r req bare /\
     (forall conds, apiType r = zeroObject conds ->
        bare = {| GetName := Name req; GetNamespace := Namespace req;
                  GetGeneration := 0; GetLabels := ∅; GetAnnotations := ∅;
                  GetFinalizers := []; GetDeletionTimestamp := None;
                  GetConditions := conds |}) /\
     GetName bare = Name req /\ GetNamespace bare = Namespace req /\
     out_clean out = Some bare /\
     (skipReconcile bare = false ->
        out_obj out =
          Object_ (ls_ctx (runComponents rt (components r) (initialState req bare))) /\
        length (List.filter isFlush (out_trace out)) = length (components r) /\
        (forall rc cs, components r = rc :: cs ->
           DeletionTimestamp_IsZero bare = true ->
           let step := comp_Reconcile (rc_comp rc)
                         {| Object_ := bare; Conditions := NewConditionHelper |} in
           exists rest,
             out_trace out = EvGet req :: EvReconcile (rc_name rc) step.1.2 step.2 :: rest) /\
        (exists e rest,
           patchCalls (out_trace out) =
             EvPatch (metaOf r (out_obj out)) (metaOf r bare) (r_name r) e :: rest))) /\
  (IsNotFound err = false ->
     out_err out = Some err /\ out_result out = zeroResult /\
     out_trace out = [EvGet req] /\ dispatched (out_trace out) = [] /\
     patchCalls (out_trace out) = []).
Proof.
  intros Hget. unfold Reconcile. rewrite Hget. cbv zeta.
  split; [intros -> ->; by repeat split|]. split; [|intros ->; by repeat split].
  intros -> Htol. rewrite Htol. cbn [negb].
  split; [done|]. split; [by intros conds ->|]. split; [done|]. split; [done|].
  set (bare := SetNamespace (Namespace req) (SetName (Name req) (apiType r))).
  unfold reconcileObject. destruct (skipReconcile bare) eqn:Hskip.
  - split; [done|]. done.
  - set (st := runComponents rt (components r) (initialState req bare)).
    destruct (persist_obj r bare st) as [Hobj Hclean].
    split; [exact Hclean|]. intros _. split; [exact Hobj|].
    pose proof (runComponents_inv rt (components r) _ (initialState_inv req bare))
      as (_ & _ & Hp & _). fold st in Hp.
    split; [|split].
    + destruct (persist_steps r bare st) as (_ & _ & _ & -> & _).
      subst st. by rewrite runComponents_flushes.
    + intros rc cs Hcs Hlive. simpl.
      rewrite (persist_trace r bare st Hp). subst st. rewrite Hcs.
      destruct (runComponents_first rc cs (initialState req bare) Hlive) as [rest ->].
      cbn [initialState ls_trace ls_ctx]. simpl. by eexists.
    + rewrite Hobj. unfold persist. rewrite Htol. cbn [negb].
      destruct (Patch (client r) _ _ _) as [e|].
      * cbn [out_trace]. rewrite patchCalls_app, Hp. by eexists _, _.
      * destruct (StatusPatch (client r) _ _ _); cbn [out_trace];
          rewrite !patchCalls_app, Hp; by eexists _, _.
Qed.

(** C9. A resource whose skip-reconcile annotation is exactly the string
    true ends the cycle right after the snapshot: nil error, empty result,
    no step called, no patch sent. With any other value, or without the
    annotation, the cycle is not skipped: it runs the component loop, one
    iteration per registered component, and goes on to persistence. *)
Theorem skip_reconcile_annotation r req obj :
  workingObject r req = Some obj ->
  let out := Reconcile rt r req in
  (GetAnnotations obj !! SkipReconcileAnnotation = Some "true" ->
     out_err out = None /\ out_result out = zeroResult /\
     out_clean out = Some obj /\ out_obj out = obj /\
     out_trace out = [EvGet req] /\ dispatched (out_trace out) = [] /\
     patchCalls (out_trace out) = []) /\
  (GetAnnotations obj !! SkipReconcileAnnotation <> Some "true" ->
     out = persist r obj (runComponents rt (components r) (initialState req obj)) /\
     length (List.filter isFlush (out_trace out)) = length (components r)).
Proof.
  intros Hobj. simpl. rewrite (Reconcile_workingObject rt r req obj Hobj).
  unfold reconcileObject. split; intros Hskip.
  - apply skipReconcile_true in Hskip. rewrite Hskip. by repeat split.
  - destruct (skipReconcile obj) eqn:E; [by apply skipReconcile_true in E|].
    split; [done|].
    destruct (persist_steps r obj
                (runComponents rt (components r) (initialState req obj)))
      as (_ & _ & _ & -> & _).
    by rewrite runComponents_flushes.
Qed.


End FetchSkipPersist.

(** ** The statements above on concrete engines *)

Lemma fetch_failure_modes_witness :
  let r := Examples.engine (Examples.failingGet Examples.notFound) false
             [Examples.register "labels" (Examples.requeueIn 5)] in
  Get (client r) Examples.req = GetFailed Examples.notFound /\
  IsNotFound Examples.notFound = true /\ abortNotFound r = false /\
  Reconcile Examples.rt r Examples.req =
    reconcileObject Examples.rt r Examples.req
      (SetNamespace "default" (SetName "demo" (zeroObject (Some [])))).
Proof.
  simpl. split; [reflexivity|]. split; [reflexivity|]. split; [reflexivity|].
  pose proof (fetch_failure_modes Examples.rt
                (Examples.engine (Examples.failingGet Examples.notFound) false
                   [Examples.register "labels" (Examples.requeueIn 5)])
                Examples.req Examples.notFound eq_refl) as H.
  simpl in H. destruct H as (_ & H & _). apply H; reflexivity.
Defined.

Lemma skip_reconcile_annotation_witness :
  let r := Examples.engine (Examples.serving (Examples.annotated "true")) false
             [Examples.register "labels" (Examples.requeueIn 5)] in
  workingObject r Examples.req = Some (Examples.annotated "true") /\
  GetAnnotations (Examples.annotated "true") !! SkipReconcileAnnotation = Some "true" /\
  out_trace (Reconcile Examples.rt r Examples.req) = [EvGet Examples.req].
Proof.
  simpl. split; [reflexivity|]. split; [reflexivity|].
  pose proof (skip_reconcile_annotation Examples.rt
                (Examples.engine (Examples.serving (Examples.annotated "true")) false
                   [Examples.register "labels" (Examples.requeueIn 5)])
                Examples.req (Examples.annotated "true") eq_refl) as H.
  simpl in H. destruct H as (H & _). apply H. reflexivity.
Defined.


(** ** Finalizers *)

Section Finalizers.

Variable rt : GoRuntime.

Lemma ContainsFinalizer_elem o f :
  controllerutil.ContainsFinalizer o f = true <-> f ∈ GetFinalizers o.
Proof.
  unfold controllerutil.ContainsFinalizer. rewrite existsb_exists, list_elem_of_In.
  split.
  - intros (x & Hin & Heq). apply String.eqb_eq in Heq. by subst.
  - intros Hin. exists f. split; [done|]. apply String.eqb_refl.
Qed.

Lemma ContainsFinalizer_not_elem o f :
  controllerutil.ContainsFinalizer o f = false <-> f ∉ GetFinalizers o.
Proof.
  rewrite <- ContainsFinalizer_elem.
  destruct (controllerutil.ContainsFinalizer o f); split; congruence.
Qed.

Lemma RemoveFinalizer_not_elem o f :
  f ∉ GetFinalizers (controllerutil.RemoveFinalizer o f).
Proof.
  unfold controllerutil.RemoveFinalizer. simpl.
  rewrite list_elem_of_In, filter_In. intros [_ H].
  by rewrite String.eqb_refl in H.
Qed.

Lemma loopBody_unfold st rc :
  loopBody rt st rc =
  let i := invoke rc (ls_ctx st) in
  let f := Flush rt i.1.1.1 (ls_tick st) in
  {| ls_ctx := f.1;
     ls_finalRes := mergeResult (ls_finalRes st) i.1.1.2;
     ls_errs := appendErr (ls_errs st) i.1.2;
     ls_tick := f.2;
     ls_trace := ls_trace st ++ i.2 ++ [EvFlush] |}.
Proof.
  unfold loopBody. destruct (invoke rc (ls_ctx st)) as [[[ctx res] err] evs].
  simpl. by destruct (Flush rt ctx (ls_tick st)).
Qed.

(** C4. For a resource marked for deletion and a finalizer-capable
    component: when the component's finalizer name is not in the finalizer
    set, the component is skipped (no step is called, the set, the errors
    and the result stay as they are); when it is in the set, the
    finalize-step is called, and the engine drops the name from what the
    step left exactly when the step reported done, whatever error the step
    returned. So, for a step that leaves its name in the set, the name is
    gone afterwards if and only if done was true. *)
Theorem finalizer_removed_iff_done st rc Finalize :
  DeletionTimestamp_IsZero (Object_ (ls_ctx st)) = false ->
  rc_finalizer rc = Some Finalize ->
  let name := rc_finalizerName rc in
  let before := GetFinalizers (Object_ (ls_ctx st)) in
  let st' := loopBody rt st rc in
  let after := GetFinalizers (Object_ (ls_ctx st')) in
  (name ∉ before ->
     ls_trace st' = ls_trace st ++ [EvFlush] /\ after = before /\
     ls_errs st' = ls_errs st /\ ls_finalRes st' = ls_finalRes st) /\
  (name ∈ before ->
   forall ctx1 res done err, Finalize (ls_ctx st) = (ctx1, res, done, err) ->
     ls_trace st' =
       ls_trace st ++ EvFinalize (rc_name rc) res done err
                      :: (if done then [EvRemoveFinalizer name] else []) ++ [EvFlush] /\
     after = (if done
              then List.filter (fun e => negb (String.eqb e name))
                     (GetFinalizers (Object_ ctx1))
              else GetFinalizers (Object_ ctx1)) /\
     ls_errs st' = appendErr (ls_errs st) err /\
     (name ∈ GetFinalizers (Object_ ctx1) -> name ∉ after <-> done = true)).
Proof.
  intros Hdel Hfin. simpl. rewrite loopBody_unfold. cbn [ls_ctx ls_trace ls_errs ls_finalRes].
  rewrite Flush_finalizers. unfold invoke. rewrite Hdel, Hfin. split.
  - intros Hnot. apply ContainsFinalizer_not_elem in Hnot. rewrite Hnot. simpl.
    by rewrite mergeResult_zero.
  - intros Hin ctx1 res done err HF. apply ContainsFinalizer_elem in Hin.
    rewrite Hin, HF. destruct done; simpl.
    + repeat split; try done. intros _.
      exact (RemoveFinalizer_not_elem (Object_ ctx1) (rc_finalizerName rc)).
    + repeat split; done.
Qed.

(** C10. In a cycle for a resource that is not marked for deletion, the
    iteration of a finalizer-capable component ends with the component's
    finalizer name in the finalizer set, whatever error the reconcile-step
    returned: when the name is absent as the step returns, the engine
    appends it right after the step; the step's error is recorded all the
    same. *)
Theorem finalizer_registered_after_reconcile st rc Finalize ctx1 res err :
  DeletionTimestamp_IsZero (Object_ (ls_ctx st)) = true ->
  rc_finalizer rc = Some Finalize ->
  comp_Reconcile (rc_comp rc) (ls_ctx st) = (ctx1, res, err) ->
  let name := rc_finalizerName rc in
  let st' := loopBody rt st rc in
  let after := GetFinalizers (Object_ (ls_ctx st')) in
  name ∈ after /\
  (name ∉ GetFinalizers (Object_ ctx1) ->
     after = GetFinalizers (Object_ ctx1) ++ [name] /\
     ls_trace st' =
       ls_trace st ++ [EvReconcile (rc_name rc) res err; EvAddFinalizer name; EvFlush]) /\
  (name ∈ GetFinalizers (Object_ ctx1) -> after = GetFinalizers (Object_ ctx1)) /\
  ls_errs st' = appendErr (ls_errs st) err.
Proof.
  intros Hlive Hfin Hstep. simpl. rewrite loopBody_unfold.
  cbn [ls_ctx ls_trace ls_errs ls_finalRes].
  rewrite Flush_finalizers. unfold invoke. rewrite Hlive, Hstep, Hfin.
  assert (bool_decide (is_Some (Some Finalize)) = true) as -> by done.
  cbn [andb].
  destruct (controllerutil.ContainsFinalizer (Object_ ctx1) (rc_finalizerName rc)) eqn:E;
    cbn [negb fst snd].
  - apply ContainsFinalizer_elem in E. repeat split; try done.
  - unfold controllerutil.AddFinalizer. rewrite E. simpl.
    apply ContainsFinalizer_not_elem in E. repeat split; try done.
    apply elem_of_app. right. by apply list_elem_of_singleton.
Qed.

(** The finalizer set and the finalizer writes along the loop, for
    components without the finalizer capability. *)
Lemma runComponents_no_finalizers cs st :
  Forall (fun rc => rc_finalizer rc = None) cs ->
  List.filter isFinalizerWrite (ls_trace (runComponents rt cs st)) =
    List.filter isFinalizerWrite (ls_trace st) /\
  ((forall rc ctx, rc ∈ cs ->
      GetFinalizers (Object_ (comp_Reconcile (rc_comp rc) ctx).1.1) =
      GetFinalizers (Object_ ctx)) ->
   GetFinalizers (Object_ (ls_ctx (runComponents rt cs st))) =
     GetFinalizers (Object_ (ls_ctx st))).
Proof.
  revert st. induction cs as [|rc cs IH]; intros st Hall; [done|].
  apply Forall_cons in Hall as [Hrc Hall]. unfold runComponents in *. simpl.
  destruct (IH (loopBody rt st rc) Hall) as [IHw IHf].
  assert (List.filter isFinalizerWrite (invoke rc (ls_ctx st)).2 = [] /\
          ((forall ctx, GetFinalizers (Object_ (comp_Reconcile (rc_comp rc) ctx).1.1) =
                        GetFinalizers (Object_ ctx)) ->
           GetFinalizers (Object_ (invoke rc (ls_ctx st)).1.1.1) =
             GetFinalizers (Object_ (ls_ctx st)))) as [Hw Hf].
  { unfold invoke. rewrite Hrc.
    destruct (DeletionTimestamp_IsZero (Object_ (ls_ctx st))); [|done].
    destruct (comp_Reconcile (rc_comp rc) (ls_ctx st)) as [[ctx1 res] err] eqn:E.
    simpl. split; [done|]. intros H. specialize (H (ls_ctx st)). by rewrite E in H. }
  split.
  - rewrite IHw, loopBody_unfold. cbn [ls_trace].
    by rewrite !List.filter_app, Hw, app_nil_r.
  - intros Hframe. rewrite IHf.
    + rewrite loopBody_unfold. cbn [ls_ctx]. rewrite Flush_finalizers. apply Hf.
      intros ctx. apply Hframe. by left.
    + intros rc' ctx Hin. apply Hframe. by right.
Qed.

(** C8. When no registered component is finalizer-capable, a cycle makes
    no write to the finalizer set: the engine never calls AddFinalizer or
    RemoveFinalizer, and, the steps themselves leaving the set alone, the
    working copy ends the cycle with the finalizers of the snapshot. *)
Theorem no_finalizer_components_no_finalizer_writes r req :
  Forall (fun rc => rc_finalizer rc = None) (components r) ->
  let out := Reconcile rt r req in
  List.filter isFinalizerWrite (out_trace out) = [] /\
  ((forall rc ctx, rc ∈ components r ->
      GetFinalizers (Object_ (comp_Reconcile (rc_comp rc) ctx).1.1) =
      GetFinalizers (Object_ ctx)) ->
   forall cleanObj, out_clean out = Some cleanObj ->
     GetFinalizers (out_obj out) = GetFinalizers cleanObj).
Proof.
  intros Hall. simpl. destruct (workingObject r req) as [obj|] eqn:Hobj.
  - rewrite (Reconcile_workingObject rt r req obj Hobj). unfold reconcileObject.
    destruct (skipReconcile obj).
    + split; [done|]. simpl. by intros _ ? [= <-].
    + destruct (runComponents_no_finalizers (components r) (initialState req obj) Hall)
        as [Hw Hf].
      destruct (persist_steps r obj (runComponents rt (components r) (initialState req obj)))
        as (_ & _ & _ & _ & ->).
      destruct (persist_obj r obj (runComponents rt (components r) (initialState req obj)))
        as [-> ->].
      split; [by rewrite Hw|]. intros Hframe ? [= <-]. by rewrite Hf.
  - split; [by rewrite (Reconcile_no_object rt r req Hobj)|].
    intros _ cleanObj. unfold workingObject, Reconcile in *.
    destruct (Get (client r) req) as [o|err]; [done|].
    destruct (IsNotFound err), (abortNotFound r); simpl in *; done.
Qed.

End Finalizers.

(** ** Component errors and requeue signals *)

Section Aggregation.

Variable rt : GoRuntime.




(** C7, as amended. A cycle in which no persistence call failed returns
    the boolean OR of the immediate-requeue flags its steps returned and,
    as requeue-delay, the least of the non-zero delays its steps returned,
    zero when there is none. A cycle in which a persistence call failed
    returns the empty result. *)
Theorem requeue_signal_aggregated r req :
  let out := Reconcile rt r req in
  (persistenceFailed (out_trace out) = false ->
     Requeue (out_result out) = existsb Requeue (componentResults (out_trace out)) /\
     isLeastNonZero (componentResults (out_trace out)) (RequeueAfter (out_result out))) /\
  (persistenceFailed (out_trace out) = true -> out_result out = zeroResult).
Proof.
  simpl. destruct (workingObject r req) as [obj|] eqn:Hobj.
  - rewrite (Reconcile_workingObject rt r req obj Hobj). unfold reconcileObject.
    destruct (skipReconcile obj); [by repeat split|].
    set (st := runComponents rt (components r) (initialState req obj)).
    pose proof (runComponents_inv rt (components r) _ (initialState_inv req obj))
      as (_ & Hres & _ & Hnf). fold st in Hres, Hnf.
    destruct (persist_steps r obj st) as (_ & -> & _). split.
    + intros Hok. destruct (persist_completed r obj st Hnf Hok) as [-> _].
      rewrite Hres. apply fold_mergeResult_aggregate.
    + unfold persist.
      repeat case_match; cbn [out_trace out_result];
        rewrite ?persistenceFailed_app, ?Hnf; simpl; done.
  - unfold workingObject, Reconcile in *.
    destruct (Get (client r) req) as [o|err]; [done|].
    destruct (IsNotFound err), (abortNotFound r); simpl in *; by repeat split.
Qed.

End Aggregation.

Lemma finalizer_removed_iff_done_witness :
  let st := Examples.loopAt Examples.deleting in
  let rc := Examples.register "storage" (Examples.storage true) in
  DeletionTimestamp_IsZero (Object_ (ls_ctx st)) = false /\
  is_Some (rc_finalizer rc) /\
  rc_finalizerName rc ∈ GetFinalizers (Object_ (ls_ctx st)) /\
  GetFinalizers (Object_ (ls_ctx (loopBody Examples.rt st rc))) = [].
Proof.
  simpl. split; [reflexivity|]. split; [by eexists|].
  assert ("demo.example.com/storage" ∈ ["demo.example.com/storage"]) as Hin by constructor.
  split; [exact Hin|].
  pose proof (finalizer_removed_iff_done Examples.rt
                (Examples.loopAt Examples.deleting)
                (Examples.register "storage" (Examples.storage true)) _
                eq_refl eq_refl) as H.
  destruct H as [_ H]. specialize (H Hin _ _ _ _ eq_refl).
  destruct H as (_ & H & _). exact H.
Defined.

Lemma finalizer_registered_after_reconcile_witness :
  let st := Examples.loopAt Examples.fetched in
  let rc := Examples.register "storage" (Examples.storage false) in
  DeletionTimestamp_IsZero (Object_ (ls_ctx st)) = true /\
  is_Some (rc_finalizer rc) /\
  comp_Reconcile (rc_comp rc) (ls_ctx st) = (ls_ctx st, zeroResult, Some Examples.boom) /\
  GetFinalizers (Object_ (ls_ctx (loopBody Examples.rt st rc))) = ["demo.example.com/storage"] /\
  ls_errs (loopBody Examples.rt st rc) = [Examples.boom].
Proof.
  simpl. split; [reflexivity|]. split; [by eexists|]. split; [reflexivity|].
  pose proof (finalizer_registered_after_reconcile Examples.rt
                (Examples.loopAt Examples.fetched)
                (Examples.register "storage" (Examples.storage false)) _ _ _ _
                eq_refl eq_refl eq_refl) as H.
  destruct H as (_ & H & _ & He). split; [|exact He].
  apply H. simpl. by intros ?%elem_of_nil.
Defined.

Lemma no_finalizer_components_no_finalizer_writes_witness :
  let r := Examples.engine (Examples.serving Examples.fetched) false
             [Examples.register "labels" (Examples.requeueIn 5);
              Examples.register "failing" Examples.failing] in
  Forall (fun rc => rc_finalizer rc = None) (components r) /\
  GetFinalizers (out_obj (Reconcile Examples.rt r Examples.req)) =
    GetFinalizers Examples.fetched.
Proof.
  simpl.
  assert (Forall (fun rc => rc_finalizer rc = None)
            [Examples.register "labels" (Examples.requeueIn 5);
             Examples.register "failing" Examples.failing]) as Hall
    by (repeat constructor).
  split; [exact Hall|].
  pose proof (no_finalizer_components_no_finalizer_writes Examples.rt
                (Examples.engine (Examples.serving Examples.fetched) false
                   [Examples.register "labels" (Examples.requeueIn 5);
                    Examples.register "failing" Examples.failing])
                Examples.req Hall) as [_ H].
  refine (H _ Examples.fetched eq_refl).
  intros rc ctx Hin. simpl in Hin.
  apply elem_of_cons in Hin as [->|Hin]; [reflexivity|].
  apply elem_of_cons in Hin as [->|Hin]; [reflexivity|].
  by apply elem_of_nil in Hin.
Defined.


Lemma requeue_signal_aggregated_witness :
  let r := Examples.engine (Examples.serving Examples.fetched) false
             [Examples.register "later" (Examples.requeueIn 30);
              Examples.register "failing" Examples.failing;
              Examples.register "sooner" (Examples.requeueIn 5)] in
  let out := Reconcile Examples.rt r Examples.req in
  persistenceFailed (out_trace out) = false /\
  isLeastNonZero (componentResults (out_trace out)) (RequeueAfter (out_result out)) /\
  RequeueAfter (out_result out) = 5.
Proof.
  simpl. split; [reflexivity|].
  pose proof (requeue_signal_aggregated Examples.rt
                (Examples.engine (Examples.serving Examples.fetched) false
                   [Examples.register "later" (Examples.requeueIn 30);
                    Examples.register "failing" Examples.failing;
                    Examples.register "sooner" (Examples.requeueIn 5)])
                Examples.req) as [H _].
  split; [apply H; reflexivity|reflexivity].
Defined.


(** C7, as stated, fails: in tolerant mode a component asks to come back
    after 5, the metadata patch is rejected, and the cycle returns the empty
    result, whose delay is zero and not the 5 that was requested. *)
Lemma requeue_delay_dropped_on_persistence_error :
  let r := Examples.engine (Examples.rejectingPatches Examples.fetched) false
             [Examples.register "labels" (Examples.requeueIn 5)] in
  let out := Reconcile Examples.rt r Examples.req in
  nonZeroDelays (componentResults (out_trace out)) = [5] /\
  RequeueAfter (out_result out) = 0 /\
  ~ isLeastNonZero (componentResults (out_trace out)) (RequeueAfter (out_result out)).
Proof.
  simpl. split; [reflexivity|]. split; [reflexivity|].
  intros [_ H]. destruct H as [Hin _]; [discriminate|].
  vm_compute in Hin. destruct Hin as [Hin|[]]. discriminate Hin.
Qed.

(** ** The condition buffer *)

Section ConditionBuffer.

Variable rt : GoRuntime.

Lemma FindStatusCondition_range_None rest ty m :
  (FindStatusCondition_range rest ty m).1 = None <-> conditionsOfType ty rest = [].
Proof.
  unfold conditionsOfType.
  revert m. induction rest as [|c rest IH]; intros m; simpl; [done|].
  destruct (String.eqb (Type_ c) ty); simpl; [done|]. apply IH.
Qed.

Lemma FindStatusCondition_None conditions ty :
  (FindStatusCondition conditions ty).1 = None <-> conditionsOfType ty conditions = [].
Proof. apply FindStatusCondition_range_None. Qed.

Lemma stamped_Type tick c : Type_ (stamped rt tick c) = Type_ c.
Proof. unfold stamped. by destruct (Time_IsZero _). Qed.

(** The value appended for a type that is not in the list yet. *)
Lemma SetStatusCondition_fresh conditions newCondition tick :
  conditionsOfType (Type_ newCondition) conditions = [] ->
  (SetStatusCondition rt conditions newCondition tick).1 =
    conditions ++ [stamped rt tick newCondition].
Proof.
  intros Hfresh. apply FindStatusCondition_None in Hfresh.
  unfold SetStatusCondition, stamped.
  destruct (FindStatusCondition conditions (Type_ newCondition)) as [existing m].
  simpl in Hfresh. subst existing. by destruct (Time_IsZero _).
Qed.

(** A type that is in the list: the list is returned as it was. *)
Lemma SetStatusCondition_present conditions newCondition tick :
  conditionsOfType (Type_ newCondition) conditions <> [] ->
  (SetStatusCondition rt conditions newCondition tick).1 = conditions.
Proof.
  intros Hin. apply SetStatusCondition_existing. by rewrite FindStatusCondition_None.
Qed.

(** Setting a condition of another type, or of a type already in the
    list, leaves the conditions of type [ty] as they are. *)
Lemma SetStatusCondition_other conditions newCondition tick ty :
  Type_ newCondition <> ty \/ conditionsOfType ty conditions <> [] ->
  conditionsOfType ty (SetStatusCondition rt conditions newCondition tick).1 =
  conditionsOfType ty conditions.
Proof.
  intros Hcase.
  destruct (conditionsOfType (Type_ newCondition) conditions) as [|e es] eqn:E.
  - rewrite (SetStatusCondition_fresh _ _ _ E). unfold conditionsOfType.
    rewrite List.filter_app. simpl. rewrite stamped_Type.
    destruct (String.eqb_spec (Type_ newCondition) ty) as [Heq|Hne].
    + destruct Hcase as [Hne|Hin]; [done|]. subst ty. by rewrite E in Hin.
    + by rewrite app_nil_r.
  - rewrite SetStatusCondition_present; [done|]. by rewrite E.
Qed.

Lemma flushEntries_cons kv l acc :
  flushEntries rt (kv :: l) acc =
  flushEntries rt l (SetStatusCondition rt acc.1 kv.2 acc.2).
Proof. done. Qed.

(** Flushing entries of other types, or over a list that holds the type
    already, leaves the conditions of type [ty] as they are. *)
Lemma flushEntries_other l conditions tick ty :
  conditionsOfType ty conditions <> [] \/ Forall (fun kv => Type_ kv.2 <> ty) l ->
  conditionsOfType ty (flushEntries rt l (conditions, tick)).1 =
  conditionsOfType ty conditions.
Proof.
  revert conditions tick. induction l as [|kv l IH]; intros conditions tick Hcase; [done|].
  rewrite flushEntries_cons. cbn [fst snd].
  assert (conditionsOfType ty (SetStatusCondition rt conditions kv.2 tick).1 =
          conditionsOfType ty conditions) as Hstep.
  { apply SetStatusCondition_other. destruct Hcase as [Hin|Hall]; [by right|].
    left. by apply Forall_cons in Hall as [? _]. }
  destruct (SetStatusCondition rt conditions kv.2 tick) as [conditions' tick'].
  simpl in Hstep. rewrite IH, Hstep; [done|].
  destruct Hcase as [Hin|Hall]; [left; by rewrite Hstep|].
  right. by apply Forall_cons in Hall as [_ ?].
Qed.

(** Flushing a staged condition [c] whose type is not in the list yet
    leaves exactly one condition of that type in the list: [c], stamped. *)
Lemma flushEntries_fresh l conditions tick c :
  conditionsOfType (Type_ c) conditions = [] ->
  Exists (fun kv => Type_ kv.2 = Type_ c) l ->
  Forall (fun kv => Type_ kv.2 = Type_ c -> kv.2 = c) l ->
  exists tick',
    conditionsOfType (Type_ c) (flushEntries rt l (conditions, tick)).1 =
    [stamped rt tick' c].
Proof.
  revert conditions tick. induction l as [|kv l IH]; intros conditions tick Hfresh Hex Hall.
  - by apply Exists_nil in Hex.
  - apply Forall_cons in Hall as [Hkv Hall]. rewrite flushEntries_cons. cbn [fst snd].
    destruct (decide (Type_ kv.2 = Type_ c)) as [Heq|Hne].
    + specialize (Hkv Heq). rewrite Hkv.
      pose proof (SetStatusCondition_fresh conditions c tick Hfresh) as Hstep.
      destruct (SetStatusCondition rt conditions c tick) as [conditions' tick'].
      simpl in Hstep. subst conditions'. exists tick.
      assert (conditionsOfType (Type_ c) (conditions ++ [stamped rt tick c]) =
              [stamped rt tick c]) as Hnow.
      { unfold conditionsOfType in *. rewrite List.filter_app, Hfresh. simpl.
        by rewrite stamped_Type, String.eqb_refl. }
      rewrite flushEntries_other; [done|]. left. by rewrite Hnow.
    + pose proof (SetStatusCondition_other conditions kv.2 tick (Type_ c) (or_introl Hne))
        as Hstep.
      destruct (SetStatusCondition rt conditions kv.2 tick) as [conditions' tick'].
      simpl in Hstep. apply IH; [by rewrite Hstep| |done].
      by apply Exists_cons in Hex as [?|?].
Qed.

Lemma Flush_conditions ctx tick conditions :
  GetConditions (Object_ ctx) = Some conditions ->
  GetConditions (Object_ (Flush rt ctx tick).1) =
    Some (flushEntries rt (MapRange rt (pending (Conditions ctx))) (conditions, tick)).1 /\
  pending (Conditions (Flush rt ctx tick).1) = ∅.
Proof.
  intros Hc. unfold Flush. rewrite Hc. by destruct (flushEntries _ _ _).
Qed.

(** Whatever the buffer holds, a flush leaves the conditions of a type
    that is already in the list as they were. *)
Lemma Flush_present ctx tick conditions ty :
  GetConditions (Object_ ctx) = Some conditions ->
  conditionsOfType ty conditions <> [] ->
  exists conditions',
    GetConditions (Object_ (Flush rt ctx tick).1) = Some conditions' /\
    conditionsOfType ty conditions' = conditionsOfType ty conditions.
Proof.
  intros Hc Hin. destruct (Flush_conditions ctx tick conditions Hc) as [-> _].
  eexists. split; [done|]. apply flushEntries_other. by left.
Qed.

(** The part of C3 that the code does: for a type that is not in the list
    before the flush, the flush leaves exactly one condition of that type,
    the staged one with its transition time stamped, and an empty buffer. *)
Lemma Flush_fresh ctx tick conditions c :
  MapRange_ok rt ->
  pendingKeyed (Conditions ctx) ->
  GetConditions (Object_ ctx) = Some conditions ->
  conditionsOfType (Type_ c) conditions = [] ->
  pending (Conditions ctx) !! Type_ c = Some c ->
  exists conditions' tick',
    GetConditions (Object_ (Flush rt ctx tick).1) = Some conditions' /\
    conditionsOfType (Type_ c) conditions' = [stamped rt tick' c] /\
    pending (Conditions (Flush rt ctx tick).1) = ∅.
Proof.
  intros Hrange Hkeyed Hc Hfresh Hstaged.
  destruct (Flush_conditions ctx tick conditions Hc) as [-> ->].
  destruct (flushEntries_fresh (MapRange rt (pending (Conditions ctx))) conditions tick c)
    as [tick' Hres]; [done| | |by eauto].
  - apply Exists_exists. exists (Type_ c, c). split; [|done].
    rewrite (Hrange (pending (Conditions ctx))). by apply elem_of_map_to_list.
  - apply Forall_forall. intros [k v] Hin Hty. simpl in *.
    rewrite (Hrange (pending (Conditions ctx))) in Hin.
    apply elem_of_map_to_list in Hin.
    pose proof (Hkeyed k v Hin) as Hk. rewrite Hty in Hk. subst k. congruence.
Qed.

(** Last write wins in the buffer, and the buffer stays keyed by type. *)
Lemma SetCondition_pending ctx cond :
  pending (Conditions (SetCondition ctx cond)) !! Type_ cond =
    Some (if bool_decide (ObservedGeneration cond = 0)
          then set_ObservedGeneration (GetGeneration (Object_ ctx)) cond
          else cond) /\
  (pendingKeyed (Conditions ctx) -> pendingKeyed (Conditions (SetCondition ctx cond))) /\
  Object_ (SetCondition ctx cond) = Object_ ctx.
Proof.
  unfold SetCondition, pendingKeyed. simpl.
  destruct (bool_decide (ObservedGeneration cond = 0)); simpl;
    (split; [by rewrite lookup_insert_eq|]); (split; [|done]);
    intros Hk k c; rewrite lookup_insert; case_decide; naive_solver.
Qed.

(** Any calls before it, then a set call for a type that is not in the
    list, then the flush: the list holds exactly one condition of the type,
    with the call's status, reason and message, the resource's generation and
    a transition time read from the clock. *)
Lemma Set_then_Flush_fresh ctx tick conditions ty status reason message :
  MapRange_ok rt ->
  pendingKeyed (Conditions ctx) ->
  GetConditions (Object_ ctx) = Some conditions ->
  conditionsOfType ty conditions = [] ->
  let flushed := (Flush rt (Set_ ctx ty status reason message) tick).1 in
  exists conditions' tick',
    GetConditions (Object_ flushed) = Some conditions' /\
    conditionsOfType ty conditions' =
      [{| Type_ := ty; Status := status;
          ObservedGeneration := GetGeneration (Object_ ctx);
          LastTransitionTime := TimeNow rt tick';
          Reason := reason; Message := message |}] /\
    pending (Conditions flushed) = ∅.
Proof.
  intros Hrange Hkeyed Hc Hfresh. simpl. unfold Set_.
  set (cond := {| Type_ := ty; Status := status; ObservedGeneration := 0;
                  LastTransitionTime := 0; Reason := reason; Message := message |}).
  destruct (SetCondition_pending ctx cond) as (Hstaged & Hk & Hobj).
  set (c := set_ObservedGeneration (GetGeneration (Object_ ctx)) cond) in *.
  apply (Flush_fresh (SetCondition ctx cond) tick conditions c); auto.
Qed.

End ConditionBuffer.

(** C1. The staged-condition merge does not reach the list entry. On a
    resource whose list holds Ready with status False, reason Waiting and
    transition time 50, staging Ready with status True and reason Done and
    flushing leaves the entry as it was: status, transition time, reason and
    message are all unchanged, although the buffer held the new values. *)
Theorem flush_leaves_existing_condition :
  let ctx0 := {| Object_ := Examples.fetched; Conditions := NewConditionHelper |} in
  let ctx := SetTrue ctx0 "Ready" "Done" "all set" in
  pending (Conditions ctx) !! "Ready" =
    Some {| Type_ := "Ready"; Status := "True"; ObservedGeneration := 7;
            LastTransitionTime := 0; Reason := "Done"; Message := "all set" |} /\
  GetConditions (Object_ ctx) =
    Some [{| Type_ := "Ready"; Status := "False"; ObservedGeneration := 3;
             LastTransitionTime := 50; Reason := "Waiting"; Message := "not yet" |}] /\
  GetConditions (Object_ (Flush Examples.rt ctx 0).1) =
    Some [{| Type_ := "Ready"; Status := "False"; ObservedGeneration := 3;
             LastTransitionTime := 50; Reason := "Waiting"; Message := "not yet" |}].
Proof. vm_compute. done. Qed.

(** C3. Two set calls for Ready followed by one flush, on a resource whose
    list already holds a Ready condition: the buffer collapses the calls to
    the last one and is empty after the flush, but the one Ready condition of
    the list keeps its old status, reason and message instead of taking the
    last call's. *)
Theorem sets_then_flush_keep_stale_condition :
  let ctx0 := {| Object_ := Examples.fetched; Conditions := NewConditionHelper |} in
  let ctx := SetTrue (SetUnknown ctx0 "Ready" "Checking" "probing") "Ready" "Done" "all set" in
  let flushed := (Flush Examples.rt ctx 0).1 in
  map_to_list (pending (Conditions ctx)) =
    [("Ready", {| Type_ := "Ready"; Status := "True"; ObservedGeneration := 7;
                  LastTransitionTime := 0; Reason := "Done"; Message := "all set" |})] /\
  GetConditions (Object_ flushed) =
    Some [{| Type_ := "Ready"; Status := "False"; ObservedGeneration := 3;
             LastTransitionTime := 50; Reason := "Waiting"; Message := "not yet" |}] /\
  pending (Conditions flushed) = ∅.
Proof. vm_compute. done. Qed.

(** ** Package collection: merging string maps *)

Section MergeStringMaps.

Import collection.

Variable range : gmap string string -> list (string * string).
Hypothesis range_ok : RangeOk range.

Lemma assign_all_None l :
  fold_left (fun (acc : option StringMap) (kv : string * string) =>
               acc ≫= mapAssign kv.1 kv.2) l None = None.
Proof using Type. by induction l. Qed.

Lemma assign_all_map l d :
  fold_left (fun (acc : option StringMap) (kv : string * string) =>
               acc ≫= mapAssign kv.1 kv.2) l (Some (mkMap d)) =
  Some (mkMap (fold_left (fun m (kv : string * string) => <[kv.1 := kv.2]> m) l d)).
Proof using Type. revert d. induction l as [|kv l IH]; intros d; [done|]. apply IH. Qed.

(** Assignments of distinct keys, in any order, amount to a union in which
    the assigned entries win. *)
Lemma insert_all_union (l : list (string * string)) (d : gmap string string) :
  NoDup l.*1 ->
  fold_left (fun m (kv : string * string) => <[kv.1 := kv.2]> m) l d =
  (list_to_map l : gmap string string) ∪ d.
Proof using Type.
  revert d. induction l as [|[k v] l IH]; intros d Hnd.
  - simpl. by rewrite (left_id_L ∅ (∪)).
  - rewrite fmap_cons in Hnd. apply NoDup_cons in Hnd as [Hk Hnd].
    cbn [fold_left]. rewrite IH by done. rewrite list_to_map_cons.
    cbn [fst snd] in *. rewrite <- insert_union_l. symmetry. apply insert_union_r.
    by apply not_elem_of_list_to_map_1.
Qed.

Lemma range_to_map (m : gmap string string) :
  NoDup (range m).*1 /\ (list_to_map (range m) : gmap string string) = m.
Proof using range_ok.
  pose proof (range_ok m) as Hp. split.
  - rewrite Hp. apply NoDup_fst_map_to_list.
  - rewrite <- (list_to_map_to_list m) at 2.
    apply list_to_map_proper; [|done]. rewrite Hp. apply NoDup_fst_map_to_list.
Qed.

Lemma MergeStringMaps_union src d :
  MergeStringMaps range src (mkMap d) = Some (mkMap (entries src ∪ d)).
Proof using range_ok.
  unfold MergeStringMaps. rewrite assign_all_map.
  destruct (range_to_map (entries src)) as [Hnd Hm].
  by rewrite insert_all_union, Hm.
Qed.

(** X1. Merging into a map value never panics and does not depend on the
    order in which Go ranges over the source: in the result every key of the
    source has the source's value and every other key has what the
    destination had. *)
Theorem MergeStringMaps_lookup src d :
  exists m,
    MergeStringMaps range src (mkMap d) = Some (mkMap m) /\
    forall k, m !! k = match entries src !! k with
                       | Some v => Some v
                       | None => d !! k
                       end.
Proof using range_ok.
  exists (entries src ∪ d). split; [apply MergeStringMaps_union|].
  intros k. rewrite lookup_union. by destruct (entries src !! k), (d !! k).
Qed.

(** X2. Merging into the nil map panics exactly when the source has an
    entry; an empty or nil source gives the nil map back. *)
Theorem MergeStringMaps_into_nil src :
  (entries src = ∅ -> MergeStringMaps range src nilMap = Some nilMap) /\
  (entries src <> ∅ -> MergeStringMaps range src nilMap = None).
Proof using range_ok.
  unfold MergeStringMaps. pose proof (range_ok (entries src)) as Hp. split.
  - intros He. rewrite He, map_to_list_empty in Hp.
    apply Permutation_nil_r in Hp. by rewrite He, Hp.
  - intros Hne. destruct (range (entries src)) as [|kv l] eqn:E.
    + symmetry in Hp. apply Permutation_nil_r in Hp.
      by apply map_to_list_empty_iff in Hp.
    + simpl. apply assign_all_None.
Qed.

(** X3. Merging the same source again changes nothing, and of two sources
    merged one after the other the later one wins on the keys they share. *)
Theorem MergeStringMaps_again a b d :
  (MergeStringMaps range a (mkMap d) ≫= MergeStringMaps range a =
   MergeStringMaps range a (mkMap d)) /\
  (MergeStringMaps range a (mkMap d) ≫= MergeStringMaps range b =
   Some (mkMap (entries b ∪ (entries a ∪ d)))).
Proof using range_ok.
  rewrite !MergeStringMaps_union. simpl. rewrite !MergeStringMaps_union.
  split; [|done]. by rewrite (assoc_L (∪)), (idemp_L (∪)).
Qed.

End MergeStringMaps.

(** ** Package metadata: labels and names *)

Section Metadata.

Import collection metadata.

Variable range : gmap string string -> list (string * string).
Hypothesis range_ok : RangeOk range.

(** [StandardLabels] never panics, and its result does not depend on the
    order in which Go ranges over the dynamic and the extra labels. *)
Lemma StandardLabels_closed p obj ac extra :
  StandardLabels range p obj ac extra = Some (mkMap (standardLabelsOf p obj ac extra)).
Proof using range_ok.
  unfold StandardLabels, standardLabelsOf, dynamicOf.
  destruct (negb (String.eqb (creator p) "")), (negb (String.eqb (manager p) "")),
    (version p), (dynamicLabels p), (negb (String.eqb ac AppComponentNone)), extra;
    simpl; rewrite ?(MergeStringMaps_union range range_ok); simpl;
    rewrite ?(MergeStringMaps_union range range_ok); simpl;
    rewrite ?(left_id_L ∅ (∪)); done.
Qed.

Lemma label_keys_distinct :
  NoDup [ApplicationNameLabelKey; ApplicationInstanceLabelKey;
         ApplicationVersionLabelKey; ApplicationComponentLabelKey;
         ApplicationManagedByLabelKey; ApplicationCreatedByLabelKey].
Proof using Type. apply (bool_decide_unpack _). by vm_compute. Qed.

(** X4. The standard labels always come out (no panic), whatever the
    options of the provider: every extra label is in the result with its own
    value, overriding any other source, and the name and instance keys are
    always present. *)
Theorem StandardLabels_extra_wins p obj ac extra :
  exists m,
    StandardLabels range p obj ac extra = Some (mkMap m) /\
    (forall k v, entries extra !! k = Some v -> m !! k = Some v) /\
    is_Some (m !! ApplicationNameLabelKey) /\
    is_Some (m !! ApplicationInstanceLabelKey).
Proof using range_ok.
  exists (standardLabelsOf p obj ac extra). split; [apply StandardLabels_closed|].
  unfold standardLabelsOf. split.
  - intros k v Hk. by apply lookup_union_Some_l.
  - split; rewrite lookup_union_is_Some; right;
      repeat case_match;
      rewrite ?lookup_insert_is_Some', ?lookup_union_is_Some, ?lookup_insert_is_Some';
      repeat (first [by left | right]);
      rewrite ?lookup_insert_is_Some', ?lookup_union_is_Some, ?lookup_insert_is_Some';
      repeat (first [by left | right]).
Qed.

Lemma StandardLabels_inv p obj ac extra m :
  StandardLabels range p obj ac extra = Some (mkMap m) ->
  m = standardLabelsOf p obj ac extra.
Proof using range_ok. rewrite StandardLabels_closed. by intros [= <-]. Qed.

(** X5. Unless an extra label overrides it, the component label is the
    component passed in, even when the dynamic labels set that key; for the
    component none the provider sets no component label of its own and the
    key is left to the dynamic labels. *)
Theorem StandardLabels_component p obj ac extra m :
  StandardLabels range p obj ac extra = Some (mkMap m) ->
  entries extra !! ApplicationComponentLabelKey = None ->
  m !! ApplicationComponentLabelKey =
    if String.eqb ac AppComponentNone
    then dynamicOf p obj !! ApplicationComponentLabelKey
    else Some ac.
Proof using range_ok.
  intros ->%StandardLabels_inv Hextra. unfold standardLabelsOf.
  rewrite lookup_union_r by done.
  destruct (String.eqb ac AppComponentNone); cbn [negb].
  - rewrite lookup_union_l; [done|]. repeat case_match; by vm_compute.
  - by rewrite lookup_insert_eq.
Qed.

(** X6. Selector labels match object labels: when neither the extra nor
    the dynamic labels touch the name and instance keys and the extra labels
    leave the component key alone, every label of [MatchLabels] is among the
    [StandardLabels] of the same object and component, with the same value. *)
Theorem MatchLabels_subset_StandardLabels p obj ac extra m :
  StandardLabels range p obj ac extra = Some (mkMap m) ->
  entries extra !! ApplicationNameLabelKey = None ->
  entries extra !! ApplicationInstanceLabelKey = None ->
  entries extra !! ApplicationComponentLabelKey = None ->
  dynamicOf p obj !! ApplicationNameLabelKey = None ->
  dynamicOf p obj !! ApplicationInstanceLabelKey = None ->
  MatchLabels p obj ac ⊆ m.
Proof using range_ok.
  intros ->%StandardLabels_inv En Ei Ec Dn Di.
  assert (forall k v,
            (<[ApplicationInstanceLabelKey := GetName obj]>
               (<[ApplicationNameLabelKey := application p]> ∅) : gmap string string)
              !! k = Some v ->
            k <> ApplicationComponentLabelKey /\
            standardLabelsOf p obj ac extra !! k = Some v) as Hbase.
  { intros k v. rewrite !lookup_insert_Some, lookup_empty.
    intros [[<- <-]|[_ [[<- <-]|[_ ?]]]]; [| |done]; (split; [done|]);
      unfold standardLabelsOf; (rewrite lookup_union_r by done);
      destruct (String.eqb ac AppComponentNone); cbn [negb];
      rewrite ?(lookup_insert_ne _ ApplicationComponentLabelKey) by done;
      (rewrite lookup_union_r by done);
      repeat case_match; by vm_compute. }
  apply map_subseteq_spec. intros k v. unfold MatchLabels.
  destruct (String.eqb ac AppComponentNone) eqn:Hac; cbn [negb].
  - intros H. by apply Hbase.
  - rewrite lookup_insert_Some. intros [[<- <-]|[_ H]]; [|by apply Hbase].
    unfold standardLabelsOf. rewrite lookup_union_r by done.
    rewrite Hac. cbn [negb]. by rewrite lookup_insert_eq.
Qed.

(** X7. The labels the provider owns: unless the extra or the dynamic
    labels set the key, created-by is the creator when that is not empty and
    absent otherwise, managed-by likewise for the manager, version is the
    version function's value when there is one, and part-of is never set. *)
Theorem StandardLabels_own_labels p obj ac extra m k :
  StandardLabels range p obj ac extra = Some (mkMap m) ->
  entries extra !! k = None ->
  dynamicOf p obj !! k = None ->
  (k = ApplicationCreatedByLabelKey ->
     m !! k = if String.eqb (creator p) "" then None else Some (creator p)) /\
  (k = ApplicationManagedByLabelKey ->
     m !! k = if String.eqb (manager p) "" then None else Some (manager p)) /\
  (k = ApplicationVersionLabelKey -> m !! k = (fun fn => fn obj) <$> version p) /\
  (k = ApplicationPartOfLabelKey -> m !! k = None).
Proof using range_ok.
  intros ->%StandardLabels_inv Hextra Hdyn. unfold standardLabelsOf.
  rewrite lookup_union_r by done.
  repeat split; intros ->;
    destruct (String.eqb ac AppComponentNone); cbn [negb];
    rewrite ?(lookup_insert_ne _ ApplicationComponentLabelKey) by done;
    (rewrite lookup_union_r by done);
    destruct (String.eqb (creator p) ""), (String.eqb (manager p) ""), (version p);
    by vm_compute.
Qed.

Lemma string_app_nil_r (s : string) : s +:+ "" = s.
Proof using Type.
  induction s as [|a s IH]; [done|].
  change (String a s +:+ "") with (String a (s +:+ "")). by rewrite IH.
Qed.

Lemma InstanceName_inj p obj ac1 ac2 :
  InstanceName p obj ac1 = InstanceName p obj ac2 -> ac1 = ac2.
Proof using Type.
  unfold InstanceName.
  destruct (String.eqb_spec ac1 AppComponentNone) as [->|H1],
           (String.eqb_spec ac2 AppComponentNone) as [->|H2]; [done| | |]; intros H.
  - do 2 apply (inj (String.app _)) in H.
    rewrite <- (string_app_nil_r (application p)) in H at 1.
    apply (inj (String.app _)) in H. discriminate H.
  - do 2 apply (inj (String.app _)) in H.
    rewrite <- (string_app_nil_r (application p)) in H at 2.
    apply (inj (String.app _)) in H. discriminate H.
  - by do 4 apply (inj (String.app _)) in H.
Qed.

(** X8. For one provider and one object, distinct components get distinct
    instance names; in particular no component's name is the name built for
    the component none. *)
Theorem InstanceName_distinct p obj ac1 ac2 :
  ac1 <> ac2 -> InstanceName p obj ac1 <> InstanceName p obj ac2.
Proof using Type. intros Hne H. by apply Hne, (InstanceName_inj p obj). Qed.

(** X9. Whatever options of the package are passed, the provider keeps
    the application name it was created with, and of several creator (or
    manager) options the last one counts. *)
Theorem NewProvider_options name (os : list Option_) :
  let p := NewProvider name (map toOpt os) in
  application p = name /\ creator p = lastCreator os /\ manager p = lastManager os.
Proof using Type.
  unfold NewProvider, lastCreator, lastManager.
  assert (forall p0,
            let p := fold_left (fun p (opt : ProviderOpt) => opt p) (map toOpt os) p0 in
            application p = application p0 /\
            creator p = fold_left (fun acc o => match o with OptCreator c => c | _ => acc end)
                          os (creator p0) /\
            manager p = fold_left (fun acc o => match o with OptManager m => m | _ => acc end)
                          os (manager p0)) as H.
  { induction os as [|o os IH]; intros p0; [done|].
    simpl. destruct (IH (toOpt o p0)) as (-> & -> & ->). by destruct o. }
  apply H.
Qed.

End Metadata.

(** ** The condition list and the buffer, further *)

Section ConditionInvariants.

Variable rt : GoRuntime.

Lemma conditionsOfType_nil_iff ty conditions :
  conditionsOfType ty conditions = [] <-> ty ∉ map Type_ conditions.
Proof.
  unfold conditionsOfType. induction conditions as [|c cs IH]; simpl.
  - split; [intros _|done]. apply not_elem_of_nil.
  - rewrite not_elem_of_cons. destruct (String.eqb_spec (Type_ c) ty) as [->|Hne].
    + split; [done|]. by intros [? _].
    + rewrite IH. split; [by split|by intros [_ ?]].
Qed.

(** The types of the list after a call: as before, or with the new type
    appended when it was not there. *)
Lemma SetStatusCondition_types conditions newCondition tick :
  map Type_ (SetStatusCondition rt conditions newCondition tick).1 =
  if bool_decide (Type_ newCondition ∈ map Type_ conditions)
  then map Type_ conditions
  else map Type_ conditions ++ [Type_ newCondition].
Proof.
  case_bool_decide as Hin.
  - rewrite SetStatusCondition_present; [done|].
    rewrite conditionsOfType_nil_iff. by intros ?.
  - rewrite SetStatusCondition_fresh by by apply conditionsOfType_nil_iff.
    by rewrite map_app, <- (stamped_Type rt tick newCondition).
Qed.

Lemma flushEntries_types l conditions tick :
  NoDup (map Type_ conditions) ->
  NoDup (map Type_ (flushEntries rt l (conditions, tick)).1) /\
  map Type_ conditions `prefix_of` map Type_ (flushEntries rt l (conditions, tick)).1.
Proof.
  revert conditions tick. induction l as [|kv l IH]; intros conditions tick Hnd; [done|].
  rewrite flushEntries_cons. cbn [fst snd].
  pose proof (SetStatusCondition_types conditions kv.2 tick) as Hty.
  destruct (SetStatusCondition rt conditions kv.2 tick) as [conditions' tick'].
  cbn [fst] in Hty. case_bool_decide as Hin.
  - destruct (IH conditions' tick') as [IH1 IH2]; [by rewrite Hty|].
    split; [done|]. by rewrite <- Hty.
  - destruct (IH conditions' tick') as [IH1 IH2].
    + rewrite Hty. apply NoDup_app. split; [done|]. split.
      * intros x Hx ->%list_elem_of_singleton. done.
      * apply NoDup_singleton.
    + split; [done|]. etrans; [|exact IH2]. rewrite Hty. by apply prefix_app_r.
Qed.

(** X10. A flush keeps the list at one condition per type: when the types
    of the list are pairwise distinct before, they are so afterwards,
    whatever the buffer holds and in whatever order Go ranges over it; and no
    condition is dropped or moved, the types before being a prefix of the
    types after. *)
Theorem Flush_one_condition_per_type ctx tick conditions :
  GetConditions (Object_ ctx) = Some conditions ->
  NoDup (map Type_ conditions) ->
  exists conditions',
    GetConditions (Object_ (Flush rt ctx tick).1) = Some conditions' /\
    NoDup (map Type_ conditions') /\
    map Type_ conditions `prefix_of` map Type_ conditions'.
Proof.
  intros Hc Hnd. destruct (Flush_conditions rt ctx tick conditions Hc) as [-> _].
  eexists. split; [done|]. by apply flushEntries_types.
Qed.

(** X11. A flush touches only the types that were staged: the conditions
    of a type that has no entry in the buffer are after the flush what they
    were before. *)
Theorem Flush_leaves_unstaged_types ctx tick conditions ty :
  MapRange_ok rt ->
  pendingKeyed (Conditions ctx) ->
  GetConditions (Object_ ctx) = Some conditions ->
  pending (Conditions ctx) !! ty = None ->
  exists conditions',
    GetConditions (Object_ (Flush rt ctx tick).1) = Some conditions' /\
    conditionsOfType ty conditions' = conditionsOfType ty conditions.
Proof.
  intros Hrange Hkeyed Hc Hnone.
  destruct (Flush_conditions rt ctx tick conditions Hc) as [-> _].
  eexists. split; [done|]. apply flushEntries_other. right.
  apply Forall_forall. intros [k v] Hin Hty. simpl in Hty.
  rewrite (Hrange (pending (Conditions ctx))) in Hin.
  apply elem_of_map_to_list in Hin.
  pose proof (Hkeyed k v Hin) as Hk. congruence.
Qed.

(** X12. A second flush right after a flush does nothing: the first one
    leaves the buffer empty (or, on a resource without a condition list,
    never reads it), so the context comes back as it is and the clock is not
    read. *)
Theorem Flush_twice ctx tick tick' :
  MapRange_ok rt ->
  Flush rt (Flush rt ctx tick).1 tick' = ((Flush rt ctx tick).1, tick').
Proof.
  intros Hrange. unfold Flush at 2 3.
  destruct (GetConditions (Object_ ctx)) as [conditions|] eqn:Hc.
  - destruct (flushEntries rt _ (conditions, tick)) as [conditions' tick''].
    cbn [fst]. unfold Flush. cbn [Object_ Conditions pending GetConditions SetConditions].
    pose proof (Hrange ∅) as Hp. rewrite map_to_list_empty in Hp.
    apply Permutation_nil_r in Hp. by rewrite Hp.
  - cbn [fst]. unfold Flush. by rewrite Hc.
Qed.

Lemma setAll_snoc ctx calls c :
  setAll ctx (calls ++ [c]) = SetCondition (setAll ctx calls) c.
Proof. unfold setAll. by rewrite fold_left_app. Qed.

Lemma setAll_Object ctx calls : Object_ (setAll ctx calls) = Object_ ctx.
Proof.
  induction calls as [|c calls IH] using rev_ind; [done|].
  by rewrite setAll_snoc.
Qed.

(** X13. Last write wins in the buffer: after any sequence of set calls,
    the entry staged for a type is the last call made for that type, with the
    resource's generation filled in where the call left it zero; a type that
    no call names keeps the entry it had. The resource itself is not touched
    by set calls. *)
Theorem setAll_last_write_wins ctx calls ty :
  pending (Conditions (setAll ctx calls)) !! ty =
    match last (conditionsOfType ty calls) with
    | Some c => Some (observed (GetGeneration (Object_ ctx)) c)
    | None => pending (Conditions ctx) !! ty
    end /\
  Object_ (setAll ctx calls) = Object_ ctx.
Proof.
  split; [|apply setAll_Object].
  induction calls as [|c calls IH] using rev_ind; [done|].
  rewrite setAll_snoc. unfold conditionsOfType in *. rewrite List.filter_app.
  unfold SetCondition. cbn [Conditions pending]. rewrite setAll_Object.
  fold (observed (GetGeneration (Object_ ctx)) c).
  assert (Type_ (observed (GetGeneration (Object_ ctx)) c) = Type_ c) as ->.
  { unfold observed. by case_bool_decide. }
  simpl. destruct (String.eqb_spec (Type_ c) ty) as [->|Hne].
  - by rewrite lookup_insert_eq, last_snoc.
  - by rewrite lookup_insert_ne, app_nil_r.
Qed.

End ConditionInvariants.

(** ** The cycle, further *)

Section CycleFurther.

Variable rt : GoRuntime.

Lemma Result_eq (a b : Result) :
  Requeue a = Requeue b -> RequeueAfter a = RequeueAfter b -> a = b.
Proof. destruct a, b. simpl. by intros -> ->. Qed.

Lemma minDelay_swap a x y : minDelay (minDelay a x) y = minDelay (minDelay a y) x.
Proof.
  unfold minDelay.
  destruct (Z.eqb_spec a 0), (Z.eqb_spec x 0), (Z.eqb_spec y 0);
    repeat (case_match; try lia); try lia;
    repeat match goal with H : (_ =? _) = _ |- _ => apply Z.eqb_eq in H || apply Z.eqb_neq in H end;
    lia.
Qed.

Lemma mergeResult_swap fr x y :
  mergeResult (mergeResult fr x) y = mergeResult (mergeResult fr y) x.
Proof.
  apply Result_eq.
  - rewrite !mergeResult_Requeue. by destruct (Requeue fr), (Requeue x), (Requeue y).
  - rewrite !mergeResult_RequeueAfter. apply minDelay_swap.
Qed.

(** X14. The merged requeue signal does not depend on the order in which
    the step results come in: the same results in another order merge into
    the same flag and the same delay. *)
Theorem mergeResult_order_irrelevant rs rs' fr :
  rs ≡ₚ rs' -> fold_left mergeResult rs fr = fold_left mergeResult rs' fr.
Proof.
  intros Hp. revert fr. induction Hp as [|x l l' _ IH|x y l|l l' l'' _ IH1 _ IH2]; intros fr.
  - done.
  - simpl. apply IH.
  - simpl. by rewrite mergeResult_swap.
  - by rewrite IH1.
Qed.

(** X15. In tolerant mode, when the metadata patch goes through and the
    status patch fails, the cycle returns the empty result and the status
    patch error, wrapped, in place of any component error; both patches were
    sent, the metadata one is not undone. *)
Theorem status_patch_failure r req obj err :
  abortNotFound r = false ->
  workingObject r req = Some obj ->
  skipReconcile obj = false ->
  let out := Reconcile rt r req in
  let cur := Object_ (ls_ctx (runComponents rt (components r) (initialState req obj))) in
  Patch (client r) (metaOf r cur) (metaOf r obj) (r_name r) = None ->
  StatusPatch (client r) cur obj (r_name r) = Some err ->
  out_err out = Some (wrapError "error patching status" err) /\
  out_result out = zeroResult /\
  patchCalls (out_trace out) =
    [EvPatch (metaOf r cur) (metaOf r obj) (r_name r) None;
     EvStatusPatch cur obj (r_name r) (Some err)].
Proof.
  intros Htol Hobj Hskip. simpl. intros Hmeta Hstatus.
  rewrite (Reconcile_workingObject rt r req obj Hobj). unfold reconcileObject.
  rewrite Hskip.
  pose proof (runComponents_inv rt (components r) _ (initialState_inv req obj))
    as (_ & _ & Hp & _).
  unfold persist. rewrite Htol. cbn [negb]. rewrite Hmeta, Hstatus.
  cbn [out_err out_result out_trace]. by rewrite !patchCalls_app, Hp.
Qed.

(** What the metadata patch compares: two objects give the same metadata
    object exactly when they agree on name, namespace, labels, annotations
    and finalizers; conditions, generation and deletion mark of the resource
    never enter it, they are the prototype's. *)
Lemma metaOf_compares_metadata_only r a b :
  (metaOf r a = metaOf r b <->
     GetName a = GetName b /\ GetNamespace a = GetNamespace b /\
     GetLabels a = GetLabels b /\ GetAnnotations a = GetAnnotations b /\
     GetFinalizers a = GetFinalizers b) /\
  GetConditions (metaOf r a) = GetConditions (apiType r) /\
  GetGeneration (metaOf r a) = GetGeneration (apiType r) /\
  GetDeletionTimestamp (metaOf r a) = GetDeletionTimestamp (apiType r).
Proof.
  split; [|done]. unfold metaOf, SetFinalizers, SetAnnotations, SetLabels,
    SetNamespace, SetName. simpl. split.
  - intros [= -> -> -> -> ->]. done.
  - intros (-> & -> & -> & -> & ->). done.
Qed.

Lemma runComponents_metadata r cs st :
  Forall (fun rc => rc_finalizer rc = None) cs ->
  (forall rc ctx, rc ∈ cs ->
     metaOf r (Object_ (comp_Reconcile (rc_comp rc) ctx).1.1) = metaOf r (Object_ ctx)) ->
  metaOf r (Object_ (ls_ctx (runComponents rt cs st))) = metaOf r (Object_ (ls_ctx st)).
Proof.
  revert st. induction cs as [|rc cs IH]; intros st Hall Hframe; [done|].
  apply Forall_cons in Hall as [Hrc Hall]. unfold runComponents in *. cbn [fold_left].
  rewrite IH; [|done|intros ? ? ?; apply Hframe; by right].
  rewrite loopBody_unfold. cbn [ls_ctx].
  transitivity (metaOf r (Object_ (invoke rc (ls_ctx st)).1.1.1)).
  - apply metaOf_compares_metadata_only.
    destruct (Flush_frame rt (invoke rc (ls_ctx st)).1.1.1 (ls_tick st))
      as (-> & -> & _ & -> & -> & -> & _). done.
  - unfold invoke. rewrite Hrc.
    destruct (DeletionTimestamp_IsZero (Object_ (ls_ctx st))); [|done].
    pose proof (Hframe rc (ls_ctx st)) as H.
    destruct (comp_Reconcile (rc_comp rc) (ls_ctx st)) as [[ctx1 res] err].
    apply H. by left.
Qed.

(** X16. In tolerant mode the metadata patch is sent even when there is
    nothing to change: with no finalizer-capable component and steps that
    leave name, namespace, labels, annotations and finalizers alone (they may
    stage conditions and change anything else), the first persistence call of
    a cycle is the metadata patch of an object against an equal baseline. *)
Theorem metadata_patch_sent_without_change r req obj :
  abortNotFound r = false ->
  workingObject r req = Some obj ->
  skipReconcile obj = false ->
  Forall (fun rc => rc_finalizer rc = None) (components r) ->
  (forall rc ctx, rc ∈ components r ->
     metaOf r (Object_ (comp_Reconcile (rc_comp rc) ctx).1.1) = metaOf r (Object_ ctx)) ->
  exists e rest,
    patchCalls (out_trace (Reconcile rt r req)) =
      EvPatch (metaOf r obj) (metaOf r obj) (r_name r) e :: rest.
Proof.
  intros Htol Hobj Hskip Hall Hframe.
  rewrite (Reconcile_workingObject rt r req obj Hobj). unfold reconcileObject.
  rewrite Hskip.
  pose proof (runComponents_inv rt (components r) _ (initialState_inv req obj))
    as (_ & _ & Hp & _).
  pose proof (runComponents_metadata r (components r) (initialState req obj) Hall Hframe)
    as Hmeta. cbn [initialState ls_ctx Object_] in Hmeta.
  unfold persist. rewrite Htol. cbn [negb]. rewrite Hmeta.
  destruct (Patch (client r) _ _ _) as [e|].
  - cbn [out_trace]. rewrite patchCalls_app, Hp. by eexists _, _.
  - destruct (StatusPatch (client r) _ _ _); cbn [out_trace];
      rewrite !patchCalls_app, Hp; by eexists _, _.
Qed.


(** Along the loop on a resource marked for deletion: no call of the live
    phase is made, and finalizers are only removed. *)
Lemma runComponents_deleting cs st :
  (forall rc F ctx, rc ∈ cs -> rc_finalizer rc = Some F ->
     DeletionTimestamp_IsZero (Object_ ctx) = false ->
     DeletionTimestamp_IsZero (Object_ (F ctx).1.1.1) = false) ->
  DeletionTimestamp_IsZero (Object_ (ls_ctx st)) = false ->
  let st' := runComponents rt cs st in
  List.filter isLiveCall (ls_trace st') = List.filter isLiveCall (ls_trace st) /\
  ((forall rc F ctx f, rc ∈ cs -> rc_finalizer rc = Some F ->
      f ∈ GetFinalizers (Object_ (F ctx).1.1.1) -> f ∈ GetFinalizers (Object_ ctx)) ->
   forall f, f ∈ GetFinalizers (Object_ (ls_ctx st')) ->
     f ∈ GetFinalizers (Object_ (ls_ctx st))).
Proof.
  revert st. induction cs as [|rc cs IH]; intros st Hkeep Hst; [done|].
  unfold runComponents in *. cbn [fold_left].
  assert (List.filter isLiveCall (ls_trace (loopBody rt st rc)) =
            List.filter isLiveCall (ls_trace st) /\
          DeletionTimestamp_IsZero (Object_ (ls_ctx (loopBody rt st rc))) = false /\
          ((forall F ctx f, rc_finalizer rc = Some F ->
              f ∈ GetFinalizers (Object_ (F ctx).1.1.1) -> f ∈ GetFinalizers (Object_ ctx)) ->
           forall f, f ∈ GetFinalizers (Object_ (ls_ctx (loopBody rt st rc))) ->
             f ∈ GetFinalizers (Object_ (ls_ctx st)))) as (Hl & Hst' & Hsub).
  { rewrite loopBody_unfold. cbn [ls_ctx ls_trace].
    unfold DeletionTimestamp_IsZero at 1.
    destruct (Flush_frame rt (invoke rc (ls_ctx st)).1.1.1 (ls_tick st))
      as (_ & _ & _ & _ & _ & -> & ->).
    fold (DeletionTimestamp_IsZero (Object_ (invoke rc (ls_ctx st)).1.1.1)).
    rewrite !List.filter_app. unfold invoke. rewrite Hst.
    destruct (rc_finalizer rc) as [F|] eqn:HF;
      [|simpl; rewrite app_nil_r; by repeat split].
    destruct (controllerutil.ContainsFinalizer _ _);
      [|simpl; rewrite app_nil_r; by repeat split].
    assert (rc ∈ rc :: cs) as Hrc by by left.
    pose proof (Hkeep rc F (ls_ctx st) Hrc HF Hst) as HkF.
    destruct (F (ls_ctx st)) as [[[ctx1 res] done] err] eqn:E. cbn [fst] in HkF.
    destruct done; simpl; rewrite app_nil_r; (split; [done|]); (split; [done|]);
      intros Hno f Hf; specialize (Hno F (ls_ctx st) f eq_refl); rewrite E in Hno;
      apply Hno; simpl; [|done].
    apply list_elem_of_In, filter_In in Hf as [Hf _]. by apply list_elem_of_In. }
  destruct (IH (loopBody rt st rc)) as [IHl IHsub];
    [intros rc' F' ctx' Hin' HF' Hz; apply (Hkeep rc'); [by right|done|done] | done |].
  split; [by rewrite IHl|].
  intros Hno f Hf. apply Hsub.
  - intros F ctx f' HF Hf'. apply (Hno rc F); [by left|done|done].
  - apply IHsub; [|done]. intros rc' F ctx f' Hin. apply Hno. by right.
Qed.



(** X19. On a resource marked for deletion, with finalize-steps that do
    not clear the mark in memory, a cycle calls no reconcile-step and
    registers no finalizer; and when the finalize-steps add no finalizer
    themselves, every finalizer of the working copy at the end was on the
    fetched resource. *)
Theorem deletion_cycle_only_finalizes r req obj :
  workingObject r req = Some obj ->
  skipReconcile obj = false ->
  DeletionTimestamp_IsZero obj = false ->
  (forall rc F ctx, rc ∈ components r -> rc_finalizer rc = Some F ->
     DeletionTimestamp_IsZero (Object_ ctx) = false ->
     DeletionTimestamp_IsZero (Object_ (F ctx).1.1.1) = false) ->
  let out := Reconcile rt r req in
  List.filter isLiveCall (out_trace out) = [] /\
  ((forall rc F ctx f, rc ∈ components r -> rc_finalizer rc = Some F ->
      f ∈ GetFinalizers (Object_ (F ctx).1.1.1) -> f ∈ GetFinalizers (Object_ ctx)) ->
   forall f, f ∈ GetFinalizers (out_obj out) -> f ∈ GetFinalizers obj).
Proof.
  intros Hobj Hskip Hdel Hkeep. simpl.
  rewrite (Reconcile_workingObject rt r req obj Hobj). unfold reconcileObject.
  rewrite Hskip.
  set (st := runComponents rt (components r) (initialState req obj)).
  destruct (persist_obj r obj st) as [-> _].
  destruct (runComponents_deleting (components r) (initialState req obj) Hkeep Hdel)
    as [Hl Hsub]. fold st in Hl, Hsub. split; [|exact Hsub].
  pose proof (persist_trace r obj st) as Htr.
  pose proof (runComponents_inv rt (components r) _ (initialState_inv req obj))
    as (_ & _ & Hp & _). fold st in Hp.
  rewrite (Htr Hp), List.filter_app, Hl. simpl.
  unfold patchCalls. generalize (out_trace (persist r obj st)).
  intros tr. induction tr as [|ev tr IH]; [done|]. simpl.
  destruct ev; simpl; done.
Qed.

End CycleFurther.

(** ** Building the engine *)

Section BuildProperties.

Context {B : Type}.
Variable env : BuildEnv B.

Lemma buildComponents_spec base seen cs b :
  let '(cs', b', called, err) := buildComponents env base seen cs b in
  map rc_name cs' = map rc_name cs /\
  called `prefix_of` initializerNames env cs /\
  (err = None ->
     NoDup (map rc_name cs) /\
     (forall n, n ∈ map rc_name cs -> seen !! n = None) /\
     cs' = map (fun rc => set_finalizerName (pathJoin env base (rc_name rc)) rc) cs /\
     called = initializerNames env cs).
Proof.
  revert seen b. induction cs as [|rc cs IH]; intros seen b.
  - simpl. repeat split; try done. + apply NoDup_nil_2. + by intros ? ?%elem_of_nil.
  - cbn [buildComponents]. unfold initializerNames. cbn [List.filter].
    destruct (seen !! rc_name rc) as [orig|] eqn:Hseen.
    + repeat split; try done. apply prefix_nil.
    + cbn [rc_comp rc_name set_finalizerName].
      destruct (initializerOf env (rc_comp rc)) as [Initialize|] eqn:Hinit.
      * assert (bool_decide (is_Some (Some Initialize)) = true) as -> by done.
        destruct (Initialize b) as [b1 [e|]].
        -- repeat split; try done. cbn [map]. apply prefix_cons, prefix_nil.
        -- specialize (IH (<[rc_name rc := rc_comp rc]> seen) b1).
           destruct (buildComponents env base _ cs b1) as [[[cs' b'] called] err].
           destruct IH as (Hn & Hp & Hok). cbn [map rc_name]. split; [by rewrite Hn|].
           split; [by apply prefix_cons|]. intros ->.
           destruct Hok as (Hnd & Hfresh & -> & ->); [done|].
           repeat split; try done.
           ++ apply NoDup_cons. split; [|done]. intros Hin.
              specialize (Hfresh _ Hin). by rewrite lookup_insert_eq in Hfresh.
           ++ intros n [->|Hin]%elem_of_cons; [done|].
              specialize (Hfresh _ Hin).
              apply lookup_insert_None in Hfresh as [? _]. done.
      * assert (bool_decide (is_Some (@None (Initializer B))) = false) as ->
          by (apply bool_decide_eq_false; by intros [? ?]).
        specialize (IH (<[rc_name rc := rc_comp rc]> seen) b).
        destruct (buildComponents env base _ cs b) as [[[cs' b'] called] err].
        destruct IH as (Hn & Hp & Hok). cbn [map rc_name]. split; [by rewrite Hn|].
        split; [done|]. intros ->.
        destruct Hok as (Hnd & Hfresh & -> & ->); [done|].
        repeat split; try done.
        -- apply NoDup_cons. split; [|done]. intros Hin.
           specialize (Hfresh _ Hin). by rewrite lookup_insert_eq in Hfresh.
        -- intros n [->|Hin]%elem_of_cons; [done|].
           specialize (Hfresh _ Hin).
           apply lookup_insert_None in Hfresh as [? _]. done.
Qed.

(** X20. [Build] succeeds only on pairwise distinct component names, and
    then it has given every component the finalizer name joined from the
    base name and the component's name, has called every initializer once, in
    registration order, and has left the components' names, logic and order,
    the prototype, the client and the not-found mode as they were. *)
Theorem Build_success bd bd' called :
  Build env bd = (bd', called, None) ->
  NoDup (map rc_name (components (b_reconciler bd))) /\
  components (b_reconciler bd') =
    map (fun rc => set_finalizerName
                     (pathJoin env (finalizerBaseName bd') (rc_name rc)) rc)
        (components (b_reconciler bd)) /\
  called = initializerNames env (components (b_reconciler bd)) /\
  apiType (b_reconciler bd') = apiType (b_reconciler bd) /\
  client (b_reconciler bd') = client (b_reconciler bd) /\
  abortNotFound (b_reconciler bd') = abortNotFound (b_reconciler bd).
Proof.
  unfold Build. destruct (getControllerName env (b_reconciler bd)) as [name|e]; [|done].
  cbn [apiType set_r_name components].
  destruct (getGvk env (apiType (b_reconciler bd))) as [gvk|e]; [|done].
  pose proof (buildComponents_spec
                (if String.eqb (finalizerBaseName bd) ""
                 then name +:+ "." +:+ Group gvk +:+ "/" else finalizerBaseName bd)
                ∅ (components (b_reconciler bd)) (controllerBuilder bd)) as Hloop.
  destruct (buildComponents env _ ∅ (components (b_reconciler bd)) (controllerBuilder bd))
    as [[[cs b] called'] err].
  destruct Hloop as (_ & _ & Hok).
  destruct err as [e|]; [done|]. destruct Hok as (Hnd & _ & -> & ->); [done|].
  destruct (controllerBuild env b); [done|].
  destruct (webhooksEnabled bd); [destruct (webhookComplete env _); [done|]|];
    intros [= <- <-]; done.
Qed.

Lemma seen_after_None (seen : gmap string Component) pre n :
  fold_left (fun s rc => <[rc_name rc := rc_comp rc]> s) pre seen !! n = None <->
  seen !! n = None /\ n ∉ map rc_name pre.
Proof.
  revert seen. induction pre as [|rc pre IH]; intros seen.
  - simpl. split; [intros ?; split; [done|apply not_elem_of_nil]|by intros [? _]].
  - cbn [fold_left map]. rewrite IH, lookup_insert_None, not_elem_of_cons.
    split; [intros [[? ?] ?]|intros [? [? ?]]]; repeat split; try done; by apply not_eq_sym.
Qed.

(** The loop over a list whose front part goes through: it goes on with
    what is behind, from the builder state and the names the front part
    left. *)
Lemma buildComponents_app base seen pre rest b :
  (buildComponents env base seen pre b).2 = None ->
  buildComponents env base seen (pre ++ rest) b =
    let before := buildComponents env base seen pre b in
    let after := buildComponents env base
                   (fold_left (fun s rc => <[rc_name rc := rc_comp rc]> s) pre seen)
                   rest before.1.1.2 in
    (before.1.1.1 ++ after.1.1.1, after.1.1.2, before.1.2 ++ after.1.2, after.2).
Proof.
  revert seen b. induction pre as [|rc pre IH]; intros seen b Hok.
  - simpl. by destruct (buildComponents env base seen rest b) as [[[? ?] ?] ?].
  - cbn [app buildComponents fold_left] in *.
    destruct (seen !! rc_name rc); [done|].
    cbn [rc_name rc_comp set_finalizerName] in *.
    destruct (initializerOf env (rc_comp rc)) as [init|].
    + destruct (init b) as [b1 [e|]]; [done|].
      specialize (IH (<[rc_name rc := rc_comp rc]> seen) b1).
      destruct (buildComponents env base _ pre b1) as [[[pre' b2] called] err].
      cbn [snd] in *. rewrite (IH Hok). cbv zeta. cbn [fst snd].
      by destruct (buildComponents env base _ rest b2) as [[[? ?] ?] ?].
    + specialize (IH (<[rc_name rc := rc_comp rc]> seen) b).
      destruct (buildComponents env base _ pre b) as [[[pre' b2] called] err].
      cbn [snd] in *. rewrite (IH Hok). cbv zeta. cbn [fst snd].
      by destruct (buildComponents env base _ rest b2) as [[[? ?] ?] ?].
Qed.

(** When the loop returns with an error, [Build] returns with it, and with
    what the loop left. *)
Lemma Build_loop_error bd gvk cs b called e :
  getGvk env (apiType (b_reconciler bd)) = GvkOk gvk ->
  let name := if String.eqb (r_name (b_reconciler bd)) ""
              then ToLower env (Kind gvk) else r_name (b_reconciler bd) in
  let base := if String.eqb (finalizerBaseName bd) ""
              then name +:+ "." +:+ Group gvk +:+ "/" else finalizerBaseName bd in
  buildComponents env base ∅ (components (b_reconciler bd)) (controllerBuilder bd) =
    (cs, b, called, Some e) ->
  (Build env bd).2 = Some e /\ (Build env bd).1.2 = called /\
  components (b_reconciler (Build env bd).1.1) = cs /\
  controllerBuilder (Build env bd).1.1 = b.
Proof.
  intros Hgvk. unfold Build, getControllerName. rewrite Hgvk.
  destruct (String.eqb (r_name (b_reconciler bd)) ""); cbn [negb apiType set_r_name];
    rewrite Hgvk; cbn [components set_r_name]; cbv zeta; intros ->; done.
Qed.

(** X21. [Build] visits the components in registration order and stops at
    the first duplicate name or failing initializer. Whatever the outcome,
    the initializers called are the first ones in registration order. When
    the components before some component go through and that component
    repeats one of their names, [Build] fails with the duplicate error,
    having called the initializers of the components before it only and
    having left it and all later components untouched. When instead its
    initializer fails, [Build] fails with that error, wrapped, having called
    the initializers of the components before it and its own, and having
    left all later components untouched: none of their initializers is
    called, none of them gets a finalizer name. *)
Theorem Build_initializers_in_order bd gvk pre rc post :
  getGvk env (apiType (b_reconciler bd)) = GvkOk gvk ->
  components (b_reconciler bd) = pre ++ rc :: post ->
  let name := if String.eqb (r_name (b_reconciler bd)) ""
              then ToLower env (Kind gvk) else r_name (b_reconciler bd) in
  let base := if String.eqb (finalizerBaseName bd) ""
              then name +:+ "." +:+ Group gvk +:+ "/" else finalizerBaseName bd in
  let before := buildComponents env base ∅ pre (controllerBuilder bd) in
  let named := fun rc => set_finalizerName (pathJoin env base (rc_name rc)) rc in
  before.2 = None ->
  (Build env bd).1.2 `prefix_of` initializerNames env (components (b_reconciler bd)) /\
  (rc_name rc ∈ map rc_name pre ->
     (Build env bd).2 = Some (errorString "duplicate component found using name") /\
     (Build env bd).1.2 = initializerNames env pre /\
     components (b_reconciler (Build env bd).1.1) = map named pre ++ rc :: post /\
     controllerBuilder (Build env bd).1.1 = before.1.1.2) /\
  (rc_name rc ∉ map rc_name pre ->
   forall init b2 e,
     initializerOf env (rc_comp rc) = Some init ->
     init before.1.1.2 = (b2, Some e) ->
     (Build env bd).2 = Some (wrapError "cannot initialize component" e) /\
     (Build env bd).1.2 = initializerNames env pre ++ [rc_name rc] /\
     components (b_reconciler (Build env bd).1.1) = map named pre ++ named rc :: post /\
     controllerBuilder (Build env bd).1.1 = b2).
Proof.
  intros Hgvk Hcs. simpl. intros Hok.
  set (name := if String.eqb (r_name (b_reconciler bd)) ""
               then ToLower env (Kind gvk) else r_name (b_reconciler bd)) in *.
  set (base := if String.eqb (finalizerBaseName bd) ""
               then name +:+ "." +:+ Group gvk +:+ "/" else finalizerBaseName bd) in *.
  pose proof (buildComponents_spec base ∅ pre (controllerBuilder bd)) as Hpre.
  pose proof (buildComponents_app base ∅ pre (rc :: post) (controllerBuilder bd) Hok) as Happ.
  destruct (buildComponents env base ∅ pre (controllerBuilder bd))
    as [[[pre' b1] called1] err1] eqn:Epre.
  cbn [fst snd] in *. subst err1.
  destruct Hpre as (_ & _ & Hpre). destruct Hpre as (_ & _ & -> & ->); [done|].
  cbv zeta in Happ. cbn [fst snd] in Happ.
  split.
  - clear Happ. unfold Build.
    destruct (getControllerName env (b_reconciler bd)) as [name'|e]; [|apply prefix_nil].
    cbn [apiType set_r_name components].
    destruct (getGvk env (apiType (b_reconciler bd))) as [gvk'|e]; [|apply prefix_nil].
    pose proof (buildComponents_spec
                  (if String.eqb (finalizerBaseName bd) ""
                   then name' +:+ "." +:+ Group gvk' +:+ "/" else finalizerBaseName bd)
                  ∅ (components (b_reconciler bd)) (controllerBuilder bd)) as Hloop.
    destruct (buildComponents env _ ∅ (components (b_reconciler bd)) (controllerBuilder bd))
      as [[[cs b] called'] err].
    destruct Hloop as (_ & Hp & _).
    destruct err; [done|]. destruct (controllerBuild env b); [done|].
    destruct (webhooksEnabled bd); [destruct (webhookComplete env _)|]; done.
  - split.
    + intros Hdup.
      assert (is_Some (fold_left (fun s rc0 => <[rc_name rc0 := rc_comp rc0]> s) pre
                         (∅ : gmap string Component) !! rc_name rc)) as [orig Hseen].
      { apply not_eq_None_Some. intros Hnone. by apply seen_after_None in Hnone as [_ ?]. }
      cbn [buildComponents] in Happ. rewrite Hseen in Happ. cbn [fst snd] in Happ.
      rewrite app_nil_r in Happ. rewrite <- Hcs in Happ.
      destruct (Build_loop_error bd gvk _ _ _ _ Hgvk Happ) as (-> & -> & -> & ->). done.
    + intros Hfresh init b2 e Hinit Hfail.
      assert (fold_left (fun s rc0 => <[rc_name rc0 := rc_comp rc0]> s) pre
                (∅ : gmap string Component) !! rc_name rc = None) as Hseen.
      { apply seen_after_None. split; [apply lookup_empty|done]. }
      cbn [buildComponents] in Happ. rewrite Hseen in Happ.
      cbn [rc_comp rc_name set_finalizerName] in Happ.
      rewrite Hinit, Hfail in Happ. cbn [fst snd] in Happ. rewrite <- Hcs in Happ.
      destruct (Build_loop_error bd gvk _ _ _ _ Hgvk Happ) as (-> & -> & -> & ->). done.
Qed.

(** X22. Names after [Build], once the kind of the prototype is known: the
    engine keeps a name given with [Named] and otherwise takes the lower-cased
    kind; the resource name is the lower-cased kind in both cases; an empty
    finalizer base name becomes the engine's name, a dot, the group and a
    slash. This holds whether or not the rest of [Build] succeeds. *)
Theorem Build_names bd gvk :
  getGvk env (apiType (b_reconciler bd)) = GvkOk gvk ->
  let bd' := (Build env bd).1.1 in
  let name := if String.eqb (r_name (b_reconciler bd)) ""
              then ToLower env (Kind gvk) else r_name (b_reconciler bd) in
  r_name (b_reconciler bd') = name /\
  resourceName bd' = ToLower env (Kind gvk) /\
  finalizerBaseName bd' =
    (if String.eqb (finalizerBaseName bd) ""
     then name +:+ "." +:+ Group gvk +:+ "/" else finalizerBaseName bd).
Proof.
  intros Hgvk. unfold Build, getControllerName. rewrite Hgvk.
  destruct (String.eqb (r_name (b_reconciler bd)) ""); cbn [negb apiType set_r_name];
    rewrite Hgvk; cbn [components set_r_name];
    destruct (buildComponents env _ ∅ _ _) as [[[cs b] called'] err];
    destruct err; try done;
    destruct (controllerBuild env b); try done;
    destruct (webhooksEnabled bd); try done;
    destruct (webhookComplete env _); done.
Qed.

(** X23. When the kind of the prototype cannot be determined, [Build]
    fails before it visits any component: no initializer is called, no
    finalizer name is assigned, and the error is wrapped as a name error when
    no name was given and as a GVK error when one was. *)
Theorem Build_unknown_kind bd err :
  getGvk env (apiType (b_reconciler bd)) = GvkErr err ->
  (Build env bd).2 =
    Some (wrapError (if String.eqb (r_name (b_reconciler bd)) ""
                     then "cannot compute controller name"
                     else "cannot get GVK for object") err) /\
  (Build env bd).1.2 = [] /\
  components (b_reconciler (Build env bd).1.1) = components (b_reconciler bd).
Proof.
  intros Hgvk. unfold Build, getControllerName. rewrite Hgvk.
  destruct (String.eqb (r_name (b_reconciler bd)) ""); cbn [negb apiType set_r_name];
    rewrite ?Hgvk; done.
Qed.

End BuildProperties.

(** ** The statements above on concrete inputs, further *)

Lemma Samples_range_ok : RangeOk Samples.range.
Proof. intros m. reflexivity. Qed.

Lemma Examples_rt_ok : MapRange_ok Examples.rt.
Proof. intros m. reflexivity. Qed.

Lemma MergeStringMaps_lookup_witness :
  RangeOk Samples.range /\
  exists m,
    collection.MergeStringMaps Samples.range
      (collection.mkMap {[ "a" := "1" ]}) (collection.mkMap {[ "a" := "0"; "b" := "2" ]}) =
      Some (collection.mkMap m) /\
    m !! "a" = Some "1" /\ m !! "b" = Some "2".
Proof.
  split; [exact Samples_range_ok|].
  destruct (MergeStringMaps_lookup Samples.range Samples_range_ok
              (collection.mkMap {[ "a" := "1" ]}) {[ "a" := "0"; "b" := "2" ]})
    as (m & Hm & Hl).
  exists m. split; [exact Hm|]. split; rewrite Hl; reflexivity.
Defined.

Lemma MergeStringMaps_into_nil_witness :
  RangeOk Samples.range /\
  collection.entries (collection.mkMap {[ "a" := "1" ]}) <> ∅ /\
  collection.MergeStringMaps Samples.range
    (collection.mkMap {[ "a" := "1" ]}) collection.nilMap = None.
Proof.
  assert (collection.entries (collection.mkMap {[ "a" := "1" ]}) <> ∅) as Hne.
  { intros H. apply (f_equal (fun m : gmap string string => m !! "a")) in H.
    discriminate H. }
  split; [exact Samples_range_ok|]. split; [exact Hne|].
  exact (proj2 (MergeStringMaps_into_nil Samples.range Samples_range_ok
                  (collection.mkMap {[ "a" := "1" ]})) Hne).
Defined.

Lemma MergeStringMaps_again_witness :
  RangeOk Samples.range /\
  (collection.MergeStringMaps Samples.range Samples.extras (collection.mkMap ∅) ≫=
     collection.MergeStringMaps Samples.range Samples.extras) =
  collection.MergeStringMaps Samples.range Samples.extras (collection.mkMap ∅).
Proof.
  split; [exact Samples_range_ok|].
  exact (proj1 (MergeStringMaps_again Samples.range Samples_range_ok
                  Samples.extras Samples.extras ∅)).
Defined.

Lemma StandardLabels_extra_wins_witness :
  RangeOk Samples.range /\
  exists m,
    metadata.StandardLabels Samples.range Samples.provider Examples.fetched "api"
      Samples.extras = Some (collection.mkMap m) /\
    m !! "team" = Some "core".
Proof.
  split; [exact Samples_range_ok|].
  destruct (StandardLabels_extra_wins Samples.range Samples_range_ok Samples.provider
              Examples.fetched "api" Samples.extras) as (m & Hm & Hextra & _).
  exists m. split; [exact Hm|]. apply Hextra. reflexivity.
Defined.

Lemma Samples_labels :
  metadata.StandardLabels Samples.range Samples.provider Examples.fetched "api"
    Samples.extras =
  Some (collection.mkMap
          (metadata.standardLabelsOf Samples.provider Examples.fetched "api"
             Samples.extras)).
Proof. vm_compute. reflexivity. Defined.

Lemma StandardLabels_component_witness :
  RangeOk Samples.range /\
  collection.entries Samples.extras !! metadata.ApplicationComponentLabelKey = None /\
  metadata.standardLabelsOf Samples.provider Examples.fetched "api" Samples.extras
    !! metadata.ApplicationComponentLabelKey = Some "api".
Proof.
  split; [exact Samples_range_ok|]. split; [reflexivity|].
  exact (StandardLabels_component Samples.range Samples_range_ok Samples.provider
           Examples.fetched "api" Samples.extras _ Samples_labels eq_refl).
Defined.

Lemma MatchLabels_subset_StandardLabels_witness :
  RangeOk Samples.range /\
  metadata.MatchLabels Samples.provider Examples.fetched "api" ⊆
    metadata.standardLabelsOf Samples.provider Examples.fetched "api" Samples.extras.
Proof.
  split; [exact Samples_range_ok|].
  exact (MatchLabels_subset_StandardLabels Samples.range Samples_range_ok Samples.provider
           Examples.fetched "api" Samples.extras _ Samples_labels
           eq_refl eq_refl eq_refl eq_refl eq_refl).
Defined.

Lemma StandardLabels_own_labels_witness :
  RangeOk Samples.range /\
  metadata.standardLabelsOf Samples.provider Examples.fetched "api" Samples.extras
    !! metadata.ApplicationCreatedByLabelKey = Some "ops".
Proof.
  split; [exact Samples_range_ok|].
  exact (proj1 (StandardLabels_own_labels Samples.range Samples_range_ok
                  Samples.provider Examples.fetched "api" Samples.extras _
                  metadata.ApplicationCreatedByLabelKey Samples_labels eq_refl eq_refl)
           eq_refl).
Defined.

Lemma InstanceName_distinct_witness :
  "api" <> metadata.AppComponentNone /\
  metadata.InstanceName Samples.provider Examples.fetched "api" <>
    metadata.InstanceName Samples.provider Examples.fetched metadata.AppComponentNone.
Proof.
  assert ("api" <> metadata.AppComponentNone) as Hne by discriminate.
  split; [exact Hne|].
  exact (InstanceName_distinct Samples.provider Examples.fetched "api"
           metadata.AppComponentNone Hne).
Defined.

Lemma Flush_one_condition_per_type_witness :
  GetConditions (Object_ Samples.staged) = Some [Examples.waiting] /\
  NoDup (map Type_ [Examples.waiting]) /\
  exists conditions',
    GetConditions (Object_ (Flush Examples.rt Samples.staged 0).1) = Some conditions' /\
    NoDup (map Type_ conditions').
Proof.
  assert (NoDup (map Type_ [Examples.waiting])) as Hnd
    by (apply NoDup_singleton).
  split; [reflexivity|]. split; [exact Hnd|].
  destruct (Flush_one_condition_per_type Examples.rt Samples.staged 0 [Examples.waiting]
              eq_refl Hnd) as (conditions' & Hc & Hnd' & _).
  exists conditions'. by split.
Defined.

Lemma Samples_staged_keyed : pendingKeyed (Conditions Samples.staged).
Proof.
  apply (SetCondition_pending
           {| Object_ := Examples.fetched; Conditions := NewConditionHelper |}
           Samples.available).
  intros k c H. simpl in H. by rewrite lookup_empty in H.
Qed.

Lemma Flush_leaves_unstaged_types_witness :
  MapRange_ok Examples.rt /\
  pendingKeyed (Conditions Samples.staged) /\
  pending (Conditions Samples.staged) !! "Ready" = None /\
  exists conditions',
    GetConditions (Object_ (Flush Examples.rt Samples.staged 0).1) = Some conditions' /\
    conditionsOfType "Ready" conditions' = [Examples.waiting].
Proof.
  split; [exact Examples_rt_ok|]. split; [exact Samples_staged_keyed|].
  split; [reflexivity|].
  exact (Flush_leaves_unstaged_types Examples.rt Samples.staged 0 [Examples.waiting]
           "Ready" Examples_rt_ok Samples_staged_keyed eq_refl eq_refl).
Defined.

Lemma Flush_twice_witness :
  MapRange_ok Examples.rt /\
  Flush Examples.rt (Flush Examples.rt Samples.staged 0).1 1 =
    ((Flush Examples.rt Samples.staged 0).1, 1%nat).
Proof.
  split; [exact Examples_rt_ok|].
  exact (Flush_twice Examples.rt Samples.staged 0 1 Examples_rt_ok).
Defined.

Lemma mergeResult_order_irrelevant_witness :
  let a := {| Requeue := false; RequeueAfter := 30 |} in
  let b := {| Requeue := true; RequeueAfter := 0 |} in
  let c := {| Requeue := false; RequeueAfter := 5 |} in
  [a; b; c] ≡ₚ [c; a; b] /\
  fold_left mergeResult [a; b; c] zeroResult = fold_left mergeResult [c; a; b] zeroResult.
Proof.
  simpl.
  assert ([{| Requeue := false; RequeueAfter := 30 |};
           {| Requeue := true; RequeueAfter := 0 |};
           {| Requeue := false; RequeueAfter := 5 |}] ≡ₚ
          [{| Requeue := false; RequeueAfter := 5 |};
           {| Requeue := false; RequeueAfter := 30 |};
           {| Requeue := true; RequeueAfter := 0 |}]) as Hp.
  { symmetry. apply (Permutation_cons_append [_; _] _). }
  split; [exact Hp|].
  exact (mergeResult_order_irrelevant _ _ zeroResult Hp).
Defined.

Lemma status_patch_failure_witness :
  let r := Examples.engine (Samples.rejectingStatus Examples.fetched) false
             [Examples.register "failing" Examples.failing] in
  abortNotFound r = false /\
  workingObject r Examples.req = Some Examples.fetched /\
  skipReconcile Examples.fetched = false /\
  out_err (Reconcile Examples.rt r Examples.req) =
    Some (wrapError "error patching status" Examples.conflict).
Proof.
  simpl. split; [reflexivity|]. split; [reflexivity|]. split; [reflexivity|].
  exact (proj1 (status_patch_failure Examples.rt
                  (Examples.engine (Samples.rejectingStatus Examples.fetched) false
                     [Examples.register "failing" Examples.failing])
                  Examples.req Examples.fetched Examples.conflict
                  eq_refl eq_refl eq_refl eq_refl eq_refl)).
Defined.



Lemma Samples_dying_keeps_mark rc F ctx :
  rc ∈ components Samples.dying ->
  rc_finalizer rc = Some F ->
  DeletionTimestamp_IsZero (Object_ ctx) = false ->
  DeletionTimestamp_IsZero (Object_ (F ctx).1.1.1) = false.
Proof.
  intros Hin HF H. simpl in Hin.
  apply elem_of_cons in Hin as [->|Hin]; [|by apply elem_of_nil in Hin].
  simpl in HF. injection HF as <-. exact H.
Qed.



Lemma deletion_cycle_only_finalizes_witness :
  workingObject Samples.dying Examples.req = Some Examples.deleting /\
  skipReconcile Examples.deleting = false /\
  DeletionTimestamp_IsZero Examples.deleting = false /\
  List.filter isLiveCall (out_trace (Reconcile Examples.rt Samples.dying Examples.req)) = [] /\
  dispatched (out_trace (Reconcile Examples.rt Samples.dying Examples.req)) =
    [FinalizeStep "storage"].
Proof.
  split; [reflexivity|]. split; [reflexivity|]. split; [reflexivity|].
  split; [|reflexivity].
  exact (proj1 (deletion_cycle_only_finalizes Examples.rt Samples.dying Examples.req
                  Examples.deleting eq_refl eq_refl eq_refl Samples_dying_keeps_mark)).
Defined.

Lemma Samples_built :
  Build Samples.env (Samples.builder "" Samples.two) =
    ((Build Samples.env (Samples.builder "" Samples.two)).1.1,
     (Build Samples.env (Samples.builder "" Samples.two)).1.2, None).
Proof. vm_compute. reflexivity. Defined.

Lemma Build_success_witness :
  (Build Samples.env (Samples.builder "" Samples.two)).2 = None /\
  map rc_finalizerName
    (components (b_reconciler (Build Samples.env (Samples.builder "" Samples.two)).1.1)) =
    ["demo.example.com/labels"; "demo.example.com/storage"] /\
  (Build Samples.env (Samples.builder "" Samples.two)).1.2 = ["storage"].
Proof.
  split; [reflexivity|].
  destruct (Build_success Samples.env (Samples.builder "" Samples.two) _ _ Samples_built)
    as (_ & Hcs & Hcalled & _).
  split; [rewrite Hcs; reflexivity|rewrite Hcalled; reflexivity].
Defined.

Lemma Build_initializers_in_order_witness :
  getGvk Samples.strict (apiType (b_reconciler (Samples.builder "" Samples.three))) =
    GvkOk Samples.gvk /\
  (buildComponents Samples.strict "demo.example.com/" ∅
     [Samples.unnamed "labels" (Examples.requeueIn 5)] []).2 = None /\
  (Build Samples.strict (Samples.builder "" Samples.three)).2 =
    Some (wrapError "cannot initialize component" Examples.boom) /\
  (Build Samples.strict (Samples.builder "" Samples.three)).1.2 = ["storage"] /\
  map rc_finalizerName
    (components (b_reconciler
       (Build Samples.strict (Samples.builder "" Samples.three)).1.1)) =
    ["demo.example.com/labels"; "demo.example.com/storage"; ""] /\
  controllerBuilder (Build Samples.strict (Samples.builder "" Samples.three)).1.1 =
    ["tried"].
Proof.
  split; [reflexivity|]. split; [reflexivity|].
  assert ("storage" ∉ map rc_name [Samples.unnamed "labels" (Examples.requeueIn 5)])
    as Hfresh.
  { apply (bool_decide_unpack _). reflexivity. }
  destruct (Build_initializers_in_order Samples.strict
              (Samples.builder "" Samples.three) Samples.gvk
              [Samples.unnamed "labels" (Examples.requeueIn 5)]
              (Samples.unnamed "storage" (Examples.storage true))
              [Samples.unnamed "volumes" (Examples.storage false)]
              eq_refl eq_refl eq_refl) as (_ & _ & Hfail).
  destruct (Hfail Hfresh (fun b => (b ++ ["tried"], Some Examples.boom)) ["tried"]
              Examples.boom eq_refl eq_refl) as (He & Hcalled & Hcs & Hb).
  split; [exact He|]. split; [exact Hcalled|].
  split; [rewrite Hcs; reflexivity|exact Hb].
Defined.

Lemma Build_names_witness :
  getGvk Samples.env (apiType (b_reconciler (Samples.builder "" Samples.two))) =
    GvkOk Samples.gvk /\
  r_name (b_reconciler (Build Samples.env (Samples.builder "" Samples.two)).1.1) = "demo" /\
  finalizerBaseName (Build Samples.env (Samples.builder "" Samples.two)).1.1 =
    "demo.example.com/".
Proof.
  split; [reflexivity|].
  destruct (Build_names Samples.env (Samples.builder "" Samples.two) Samples.gvk eq_refl)
    as (Hn & _ & Hb).
  split; [rewrite Hn; reflexivity|rewrite Hb; reflexivity].
Defined.

Lemma Build_unknown_kind_witness :
  getGvk Samples.lost (apiType (b_reconciler (Samples.builder "" Samples.two))) =
    GvkErr (errorString "no kind is registered") /\
  (Build Samples.lost (Samples.builder "" Samples.two)).2 =
    Some (wrapError "cannot compute controller name"
            (errorString "no kind is registered")).
Proof.
  split; [reflexivity|].
  exact (proj1 (Build_unknown_kind Samples.lost (Samples.builder "" Samples.two)
                  (errorString "no kind is registered") eq_refl)).
Defined.

Lemma Samples_statusOnly_frame rc ctx :
  rc ∈ components Samples.statusOnly ->
  metaOf Samples.statusOnly (Object_ (comp_Reconcile (rc_comp rc) ctx).1.1) =
    metaOf Samples.statusOnly (Object_ ctx).
Proof.
  intros Hin. simpl in Hin.
  apply elem_of_cons in Hin as [->|Hin]; [reflexivity|]. by apply elem_of_nil in Hin.
Qed.

Lemma metadata_patch_sent_without_change_witness :
  abortNotFound Samples.statusOnly = false /\
  workingObject Samples.statusOnly Examples.req = Some Examples.fetched /\
  skipReconcile Examples.fetched = false /\
  Forall (fun rc => rc_finalizer rc = None) (components Samples.statusOnly) /\
  exists e rest,
    patchCalls (out_trace (Reconcile Examples.rt Samples.statusOnly Examples.req)) =
      EvPatch (metaOf Samples.statusOnly Examples.fetched)
              (metaOf Samples.statusOnly Examples.fetched) "demo" e :: rest.
Proof.
  assert (Forall (fun rc => rc_finalizer rc = None) (components Samples.statusOnly))
    as Hall by (repeat constructor).
  split; [reflexivity|]. split; [reflexivity|]. split; [reflexivity|].
  split; [exact Hall|].
  exact (metadata_patch_sent_without_change Examples.rt Samples.statusOnly Examples.req
           Examples.fetched eq_refl eq_refl eq_refl Hall Samples_statusOnly_frame).
Defined.
